(** * Telegram-HTML converter of tg-html-bot (src/main.py)

    Shallow embedding of the formatting core of [src/main.py]:
    [utf16_units_to_py_index], [basic_tags_for_type], [tag_priority],
    [build_raw_spans], [merge_mergeable_spans], [to_telegram_html] and the
    reply of the message handlers [handle_text] / [handle_caption].

    Modelling conventions.
    - A Python [str] is its sequence of code points: [list Z]
      ([ord] of each character).  Output strings are code-point lists too;
      [lit] turns an ASCII literal of the source into one.
    - A [MessageEntity] is a record; [e_addr] is the object's [id(e)]
      (its identity), [e_url] its [url] attribute and [e_user] the [id] of
      its attached [User] (absent = [None]).
    - A span dict is a record [span].
    - Exceptions raised by the source are the [Raise] case of [result]. *)

From Stdlib Require Import List ZArith Lia Bool Ascii String.
From Stdlib Require Import Numbers.DecimalString Sorting.Sorted Sorting.Permutation.
Import ListNotations.
Open Scope Z_scope.

(** ** Python strings as code-point lists *)

Definition pystr := list Z.

Definition lit (s : string) : pystr :=
  map (fun a => Z.of_nat (nat_of_ascii a)) (list_ascii_of_string s).

(** Python's [text[a:b]] for [0 <= a], [0 <= b] (bounds are clamped). *)
Definition py_slice (s : pystr) (a b : nat) : pystr :=
  firstn (b - a) (skipn a s).

(** [Py_UNICODE_ISSPACE]: the whitespace of [str.isspace], [str.strip()] and
    [str.split()]. *)
Definition py_isspace (c : Z) : bool :=
  ((9 <=? c) && (c <=? 13)) || ((28 <=? c) && (c <=? 31)) || (c =? 32)
  || (c =? 133) || (c =? 160) || (c =? 5760)
  || ((8192 <=? c) && (c <=? 8202)) || (c =? 8232) || (c =? 8233)
  || (c =? 8239) || (c =? 8287) || (c =? 12288).

(** [str.isspace()]: false on the empty string. *)
Definition py_str_isspace (s : pystr) : bool :=
  match s with
  | [] => false
  | _ => forallb py_isspace s
  end.

Fixpoint drop_space (s : pystr) : pystr :=
  match s with
  | c :: r => if py_isspace c then drop_space r else s
  | [] => []
  end.

(** [str.strip()] *)
Definition py_strip (s : pystr) : pystr := rev (drop_space (rev (drop_space s))).

(** ["".join(s.split())]: every whitespace character removed. *)
Definition join_split (s : pystr) : pystr := filter (fun c => negb (py_isspace c)) s.

(** [str(n)] for a Python int. *)
Fixpoint uint_digits (d : Decimal.uint) : pystr :=
  match d with
  | Decimal.Nil => []
  | Decimal.D0 r => 48 :: uint_digits r
  | Decimal.D1 r => 49 :: uint_digits r
  | Decimal.D2 r => 50 :: uint_digits r
  | Decimal.D3 r => 51 :: uint_digits r
  | Decimal.D4 r => 52 :: uint_digits r
  | Decimal.D5 r => 53 :: uint_digits r
  | Decimal.D6 r => 54 :: uint_digits r
  | Decimal.D7 r => 55 :: uint_digits r
  | Decimal.D8 r => 56 :: uint_digits r
  | Decimal.D9 r => 57 :: uint_digits r
  end.

Definition py_str_int (z : Z) : pystr :=
  match Z.to_int z with
  | Decimal.Pos d => uint_digits d
  | Decimal.Neg d => 45 :: uint_digits d
  end.

(** [html.escape(s)] (quote=True).  The source's chain of [str.replace]
    calls ([&] first) amounts to replacing each character on its own. *)
Definition escape_char (c : Z) : pystr :=
  if c =? 38 then lit "&amp;"
  else if c =? 60 then lit "&lt;"
  else if c =? 62 then lit "&gt;"
  else if c =? 34 then lit "&quot;"
  else if c =? 39 then lit "&#x27;"
  else [c].

Definition html_escape (s : pystr) : pystr := flat_map escape_char s.

(** ** Offset translator: [utf16_units_to_py_index] (lines 33-43) *)

Definition units_of (c : Z) : Z := if c >? 65535 then 2 else 1.

(** The [while i < n and u < unit_pos] loop; [s] is [text[i:]]. *)
Fixpoint utf16_scan (s : pystr) (unit_pos u : Z) (i : nat) : nat :=
  match s with
  | [] => i
  | c :: rest =>
      if u <? unit_pos then utf16_scan rest unit_pos (u + units_of c) (S i)
      else i
  end.

Definition utf16_units_to_py_index (s : pystr) (unit_pos : Z) : nat :=
  if unit_pos <=? 0 then 0%nat else utf16_scan s unit_pos 0 0.

(** Total UTF-16 length of a text. *)
Definition utf16_len (s : pystr) : Z := fold_right (fun c acc => units_of c + acc) 0 s.

(** ** Entities, tag templates, priorities (lines 18-67) *)

(** [etype_str(e)]: the entity kinds the source names, and any other. *)
Inductive etype :=
| Bold | Italic | Underline | Strikethrough | Spoiler | Code | Pre
| TextLink | TextMention | Url | Email | Mention | Blockquote
| OtherType (name : pystr).

Definition etype_eqb (a b : etype) : bool :=
  match a, b with
  | Bold, Bold | Italic, Italic | Underline, Underline
  | Strikethrough, Strikethrough | Spoiler, Spoiler | Code, Code | Pre, Pre
  | TextLink, TextLink | TextMention, TextMention | Url, Url | Email, Email
  | Mention, Mention | Blockquote, Blockquote => true
  | OtherType x, OtherType y => if list_eq_dec Z.eq_dec x y then true else false
  | _, _ => false
  end.

(** [MERGEABLE = {"bold", "italic", "underline", "strikethrough"}].  The
    iteration order of this Python set is hash dependent; the list below is
    one order.  It only fixes the order of the merged span list, which the
    renderer sorts away. *)
Definition MERGEABLE : list etype := [Bold; Italic; Underline; Strikethrough].

Definition is_mergeable (t : etype) : bool := existsb (etype_eqb t) MERGEABLE.

(** [tag_priority] = [TAG_PRIORITY.get(etype, DEFAULT_PRIORITY)] *)
Definition tag_priority (t : etype) : Z :=
  match t with
  | Blockquote => -10
  | TextLink | TextMention | Url | Email | Mention => 0
  | Bold => 10 | Italic => 11 | Underline => 12 | Strikethrough => 13
  | Spoiler => 14
  | Code => 20 | Pre => 21
  | OtherType _ => 15
  end.

(** Python truthiness of the optional [href] and [user_id]. *)
Definition truthy_str (o : option pystr) : bool :=
  match o with Some (_ :: _) => true | _ => false end.

Definition truthy_int (o : option Z) : bool :=
  match o with Some z => negb (z =? 0) | None => false end.

(** The double quote character, code point 34. *)
Definition dq : pystr := [34].

(** [f'<a href="{prefix}{h}">'] *)
Definition a_open (prefix h : pystr) : pystr :=
  lit "<a href=" ++ dq ++ prefix ++ h ++ dq ++ lit ">".

(** [basic_tags_for_type]; [(None, None)] is [None]. *)
Definition basic_tags_for_type (t : etype) (href : option pystr) (user_id : option Z)
  : option (pystr * pystr) :=
  let h := match href with Some h => h | None => [] end in
  match t with
  | Bold => Some (lit "<b>", lit "</b>")
  | Italic => Some (lit "<i>", lit "</i>")
  | Underline => Some (lit "<u>", lit "</u>")
  | Strikethrough => Some (lit "<s>", lit "</s>")
  | Spoiler => Some (lit "<span class=" ++ dq ++ lit "tg-spoiler" ++ dq ++ lit ">", lit "</span>")
  | Code => Some (lit "<code>", lit "</code>")
  | Pre => Some (lit "<pre>", lit "</pre>")
  | TextLink =>
      if truthy_str href then Some (a_open [] (html_escape h), lit "</a>") else None
  | TextMention =>
      match user_id with
      | Some uid => if truthy_int user_id
                    then Some (a_open (lit "tg://user?id=") (py_str_int uid), lit "</a>")
                    else None
      | None => None
      end
  | Url =>
      if truthy_str href then Some (a_open [] (html_escape h), lit "</a>") else None
  | Email =>
      if truthy_str href then Some (a_open (lit "mailto:") (html_escape h), lit "</a>") else None
  | Mention =>
      if truthy_str href then Some (a_open (lit "https://t.me/") (html_escape h), lit "</a>")
      else None
  | Blockquote => Some (lit "<blockquote>", lit "</blockquote>")
  | OtherType _ => None
  end.

(** A [MessageEntity]; [e_addr] is [id(e)]. *)
Record entity := mk_entity {
  e_addr : Z;
  e_type : etype;
  e_offset : Z;
  e_length : Z;
  e_url : option pystr;
  e_user : option Z
}.

(** A span dict of the source. *)
Record span := mk_span {
  sp_id : Z;
  sp_type : etype;
  sp_start : nat;
  sp_end : nat;
  sp_open : pystr;
  sp_close : pystr;
  sp_priority : Z
}.

(** ** Span builder: [build_raw_spans] (lines 69-115) *)

Definition strip_at (s : pystr) : pystr :=
  match s with 64 :: r => r | _ => s end.

(** The body of the [for e in entities] loop: the span it appends, if any. *)
Definition build_one (text : pystr) (e : entity) : option span :=
  let t := e_type e in
  let start := utf16_units_to_py_index text (e_offset e) in
  let end_ := utf16_units_to_py_index text (e_offset e + e_length e) in
  (* [start < 0] never holds: [start] is a character count *)
  if (end_ <=? start)%nat || (List.length text <? end_)%nat then None
  else
    let substr := py_slice text start end_ in
    let '(href, user_id) :=
      match t with
      | TextLink => if truthy_str (e_url e) then (e_url e, None) else (None, None)
      | TextMention => match e_user e with
                       | Some uid => (None, Some uid)
                       | None => (None, None)
                       end
      | Url => (Some (join_split substr), None)
      | Email => (Some (join_split substr), None)
      | Mention => (Some (strip_at (py_strip substr)), None)
      | _ => (None, None)
      end in
    if is_mergeable t && (match py_strip substr with [] => true | _ => false end)
    then None
    else
      match basic_tags_for_type t href user_id with
      | None => None
      | Some (o, c) =>
          Some {| sp_id := e_addr e; sp_type := t; sp_start := start; sp_end := end_;
                  sp_open := o; sp_close := c; sp_priority := tag_priority t |}
      end.

Fixpoint build_loop (text : pystr) (es : list entity) : list span :=
  match es with
  | [] => []
  | e :: r => match build_one text e with
              | Some s => s :: build_loop text r
              | None => build_loop text r
              end
  end.

(** [entities] is [None] or a list. *)
Definition build_raw_spans (text : pystr) (entities : option (list entity)) : list span :=
  match entities with
  | None | Some [] => []
  | Some es => build_loop text es
  end.

(** The substring [text[start:end]] an entity covers. *)
Definition covered (text : pystr) (e : entity) : pystr :=
  py_slice text (utf16_units_to_py_index text (e_offset e))
                (utf16_units_to_py_index text (e_offset e + e_length e)).

(** ** Exceptions *)

Inductive py_exc := AttributeError.

Inductive result (A : Type) :=
| Ok (a : A)
| Raise (e : py_exc).
Arguments Ok {A} a.
Arguments Raise {A} e.

(** ** Span merger: [merge_mergeable_spans] (lines 117-146) *)

Definition set_end (s : span) (e : nat) : span :=
  {| sp_id := sp_id s; sp_type := sp_type s; sp_start := sp_start s; sp_end := e;
     sp_open := sp_open s; sp_close := sp_close s; sp_priority := sp_priority s |}.

(** [arr.sort(key=lambda x: (x["start"], x["end"]))], a stable sort:
    [x] goes after every element whose key is not greater. *)
Definition se_ltb (x y : span) : bool :=
  (sp_start x <? sp_start y)%nat
  || (Nat.eqb (sp_start x) (sp_start y) && (sp_end x <? sp_end y)%nat).

Fixpoint insert_se (x : span) (l : list span) : list span :=
  match l with
  | [] => [x]
  | y :: r => if se_ltb x y then x :: l else y :: insert_se x r
  end.

Definition sort_se (l : list span) : list span :=
  fold_left (fun acc x => insert_se x acc) l [].

(** The [for nxt in arr[1:]] loop with accumulator [cur]; returns what it
    appends to [merged], in order, the final [cur] last. *)
Fixpoint merge_scan (text : pystr) (cur : span) (rest : list span) : list span :=
  match rest with
  | [] => [cur]
  | nxt :: r =>
      let gap := py_slice text (sp_end cur) (sp_start nxt) in
      if negb (match gap with [] => true | _ => false end) && negb (py_str_isspace gap)
      then cur :: merge_scan text nxt r
      else merge_scan text (set_end cur (Nat.max (sp_end cur) (sp_end nxt))) r
  end.

Definition merge_kind (text : pystr) (arr : list span) : list span :=
  match arr with
  | [] => []
  | a :: r => merge_scan text a r
  end.

Definition of_type (t : etype) (s : span) : bool := etype_eqb (sp_type s) t.

(** The first partition loop (line 121) calls [others.setdefault] on a
    list as soon as it meets a span whose type is not mergeable, which
    raises [AttributeError]; the second loop (lines 123-129) is reached
    only when every span is mergeable. *)
Definition merge_mergeable_spans (text : pystr) (spans : list span) : result (list span) :=
  if existsb (fun s => negb (is_mergeable (sp_type s))) spans then Raise AttributeError
  else
    let others := filter (fun s => negb (is_mergeable (sp_type s))) spans in
    Ok (flat_map (fun t => merge_kind text (sort_se (filter (of_type t) spans))) MERGEABLE
        ++ others).

(** The merge of one kind as the specification words it: a gap that is
    non-empty and contains a non-whitespace character closes the
    accumulator; otherwise the accumulator's end becomes the larger end. *)
Fixpoint merge_scan_as_specified (text : pystr) (cur : span) (rest : list span) : list span :=
  match rest with
  | [] => [cur]
  | nxt :: r =>
      let gap := py_slice text (sp_end cur) (sp_start nxt) in
      if (0 <? List.length gap)%nat && existsb (fun c => negb (py_isspace c)) gap
      then cur :: merge_scan_as_specified text nxt r
      else merge_scan_as_specified text (set_end cur (Nat.max (sp_end cur) (sp_end nxt))) r
  end.

Definition merge_kind_as_specified (text : pystr) (arr : list span) : list span :=
  match arr with
  | [] => []
  | a :: r => merge_scan_as_specified text a r
  end.

(** The order [sort_se] produces: by [(start, end)]. *)
Definition se_leb (x y : span) : bool :=
  (sp_start x <? sp_start y)%nat
  || (Nat.eqb (sp_start x) (sp_start y) && (sp_end x <=? sp_end y)%nat).

(** ** Escaping and markup, as the specification states them *)

(** The tags of the output dialect that carry no attribute. *)
Definition fixed_tags : list pystr :=
  [lit "<b>"; lit "</b>"; lit "<i>"; lit "</i>"; lit "<u>"; lit "</u>";
   lit "<s>"; lit "</s>"; lit "<span class=" ++ dq ++ lit "tg-spoiler" ++ dq ++ lit ">";
   lit "</span>"; lit "<code>"; lit "</code>"; lit "<pre>"; lit "</pre>"; lit "</a>";
   lit "<blockquote>"; lit "</blockquote>"].

(** A piece of markup: a fixed tag, or a link whose target is escaped
    (a raw URL, [mailto:] or a profile link by username), or a profile
    link by numeric user id. *)
Definition markup_piece (p : pystr) : Prop :=
  In p fixed_tags
  \/ (exists pre h, In pre [[]; lit "mailto:"; lit "https://t.me/"] /\ p = a_open pre (html_escape h))
  \/ (exists uid, p = a_open (lit "tg://user?id=") (py_str_int uid)).

Fixpoint prefixb (p s : pystr) : bool :=
  match p, s with
  | [], _ => true
  | a :: p', b :: s' => (a =? b) && prefixb p' s'
  | _ :: _, [] => false
  end.

Definition entity_bodies : list pystr :=
  [lit "amp;"; lit "lt;"; lit "gt;"; lit "quot;"; lit "#x27;"].

(** Escaped form: no raw [<], [>], double or single quote, and every [&]
    begins one of the entities [&amp;], [&lt;], [&gt;], [&quot;], [&#x27;]. *)
Fixpoint escaped_ok (s : pystr) : bool :=
  match s with
  | [] => true
  | c :: r =>
      (if c =? 38 then existsb (fun b => prefixb b r) entity_bodies
       else negb ((c =? 60) || (c =? 62) || (c =? 34) || (c =? 39)))
      && escaped_ok r
  end.

(** A piece of the output: one escaped character of the text, or markup. *)
Definition output_piece_ok (text : pystr) (p : pystr) : Prop :=
  (exists c, In c text /\ p = html_escape [c]) \/ markup_piece p.

(** A span whose tags come from [basic_tags_for_type]. *)
Definition tags_from_table (s : span) : Prop :=
  exists t h u, basic_tags_for_type t h u = Some (sp_open s, sp_close s).

(** ** Tags in an output string, and their nesting *)

(** The tags of a string: the text between each [<] and the next [>]. *)
Fixpoint tags_in (s : pystr) (cur : option pystr) : list pystr :=
  match s with
  | [] => []
  | c :: r =>
      match cur with
      | None => if c =? 60 then tags_in r (Some []) else tags_in r None
      | Some acc => if c =? 62 then rev acc :: tags_in r None else tags_in r (Some (c :: acc))
      end
  end.

Definition tags_of (s : pystr) : list pystr := tags_in s None.

(** A close tag's text starts with [/]; a tag's name runs up to the first
    space. *)
Definition is_close_body (b : pystr) : bool := match b with 47 :: _ => true | _ => false end.

Fixpoint take_name (b : pystr) : pystr :=
  match b with
  | [] => []
  | c :: r => if c =? 32 then [] else c :: take_name r
  end.

Definition tag_name (b : pystr) : pystr :=
  match b with 47 :: r => take_name r | _ => take_name b end.

(** Nesting check with a stack of open tag names: a close tag must close
    the innermost open one. *)
Fixpoint nest_check (ts : list pystr) (st : list pystr) : option (list pystr) :=
  match ts with
  | [] => Some st
  | t :: r =>
      if is_close_body t then
        match st with
        | top :: st' => if list_eq_dec Z.eq_dec top (tag_name t) then nest_check r st' else None
        | [] => None
        end
      else nest_check r (tag_name t :: st)
  end.

Definition count_open (ts : list pystr) : nat := List.length (filter (fun t => negb (is_close_body t)) ts).
Definition count_close (ts : list pystr) : nat := List.length (filter is_close_body ts).

(** No [<] nor [>]. *)
Definition tagfree (p : pystr) : bool := forallb (fun c => negb ((c =? 60) || (c =? 62))) p.

(** The text content of an HTML string: everything outside [<...>]. *)
Fixpoint text_in (s : pystr) (inside : bool) : pystr :=
  match s with
  | [] => []
  | c :: r =>
      if inside then (if c =? 62 then text_in r false else text_in r true)
      else (if c =? 60 then text_in r true else c :: text_in r false)
  end.

Definition strip_tags (s : pystr) : pystr := text_in s false.

(** ** Renderer: the body of [to_telegram_html] (lines 155-214) *)

Section Render.

Variable text : pystr.
Variable spans : list span.

Definition span_len (s : span) : Z := Z.of_nat (sp_end s) - Z.of_nat (sp_start s).

(** [((k1, k2), sid)] entries of [starts] and [ends] as triples. *)
Definition key_ltb (a b : Z * Z * Z) : bool :=
  let '(a1, a2, a3) := a in
  let '(b1, b2, b3) := b in
  (a1 <? b1) || ((a1 =? b1) && ((a2 <? b2) || ((a2 =? b2) && (a3 <? b3)))).

Fixpoint insert_key (x : Z * Z * Z) (l : list (Z * Z * Z)) : list (Z * Z * Z) :=
  match l with
  | [] => [x]
  | y :: r => if key_ltb x y then x :: l else y :: insert_key x r
  end.

Definition sort_keys (l : list (Z * Z * Z)) : list (Z * Z * Z) :=
  fold_left (fun acc x => insert_key x acc) l [].

Definition entry_id (k : Z * Z * Z) : Z := let '(_, _, sid) := k in sid.

(** [starts[pos]] after sorting, as its list of span ids. *)
Definition starts_at (pos : nat) : list Z :=
  map entry_id (sort_keys
    (map (fun s => (- span_len s, sp_priority s, sp_id s))
         (filter (fun s => Nat.eqb (sp_start s) pos) spans))).

Definition ends_at (pos : nat) : list Z :=
  map entry_id (sort_keys
    (map (fun s => (span_len s, - sp_priority s, sp_id s))
         (filter (fun s => Nat.eqb (sp_end s) pos) spans))).

(** [by_id]: later spans overwrite earlier ones with the same id. *)
Definition by_id (sid : Z) : option span := find (fun s => sp_id s =? sid) (rev spans).

(** [by_id[sid]["open"]] and [["close"]]; every id looked up comes from
    [spans], so the [None] case is never taken. *)
Definition open_of (sid : Z) : pystr :=
  match by_id sid with Some s => sp_open s | None => [] end.
Definition close_of (sid : Z) : pystr :=
  match by_id sid with Some s => sp_close s | None => [] end.

(** Renderer state: [out] and [open_stack].  [stk] lists [open_stack]
    top first, i.e. [open_stack = rev stk]. *)
Record rstate := mk_rstate { out : list pystr; stk : list Z }.

(** [close_until]: first the [while] loop popping everything above [sid]. *)
Fixpoint pop_above (sid : Z) (st : list Z) (o : list pystr) (reopen : list Z)
  : list Z * list pystr * list Z :=
  match st with
  | top :: rest =>
      if top =? sid then (st, o, reopen)
      else pop_above sid rest (o ++ [close_of top]) (reopen ++ [top])
  | [] => (st, o, reopen)
  end.

Definition close_until (sid : Z) (rs : rstate) : rstate :=
  let '(st1, o1, reopen) := pop_above sid (stk rs) (out rs) [] in
  let '(st2, o2) :=
    match st1 with
    | top :: rest => if top =? sid then (rest, o1 ++ [close_of sid]) else (st1, o1)
    | [] => (st1, o1)
    end in
  let '(st3, o3) :=
    fold_left (fun '(st, o) x => (x :: st, o ++ [open_of x])) (rev reopen) (st2, o2) in
  {| out := o3; stk := st3 |}.

(** [open_stack.index(sid)]: position from the bottom of the first
    occurrence. *)
Fixpoint index_of (x : Z) (l : list Z) : option nat :=
  match l with
  | [] => None
  | y :: r => if y =? x then Some 0%nat
              else match index_of x r with Some k => Some (S k) | None => None end
  end.

(** [max(idx_sid, key=lambda x: x[0])]: the first pair of greatest index. *)
Definition py_max_fst (l : list (nat * Z)) : option (nat * Z) :=
  match l with
  | [] => None
  | x :: r => Some (fold_left (fun best y => if (fst best <? fst y)%nat then y else best) r x)
  end.

(** [to_close.remove(x)]: drops the first occurrence ([x] always occurs). *)
Fixpoint py_remove (x : Z) (l : list Z) : list Z :=
  match l with
  | [] => []
  | y :: r => if y =? x then r else y :: py_remove x r
  end.

(** The [while to_close] loop (lines 192-199).  Every round removes one
    element of [to_close], so [length to_close] rounds are enough. *)
Fixpoint close_loop (fuel : nat) (to_close : list Z) (rs : rstate) : rstate :=
  match fuel with
  | O => rs
  | S f =>
      match to_close with
      | [] => rs
      | _ =>
          let idx_sid :=
            flat_map (fun sid => match index_of sid (rev (stk rs)) with
                                 | Some k => [(k, sid)]
                                 | None => []
                                 end) to_close in
          match py_max_fst idx_sid with
          | None => rs
          | Some (_, deepest) => close_loop f (py_remove deepest to_close) (close_until deepest rs)
          end
      end
  end.

Definition close_phase (i : nat) (rs : rstate) : rstate :=
  let to_close := ends_at i in close_loop (List.length to_close) to_close rs.

Definition open_phase (i : nat) (rs : rstate) : rstate :=
  fold_left (fun r sid => {| out := out r ++ [open_of sid]; stk := sid :: stk r |})
            (starts_at i) rs.

Definition char_phase (i : nat) (rs : rstate) : rstate :=
  if (i <? List.length text)%nat
  then {| out := out rs ++ [html_escape [nth i text 0]]; stk := stk rs |}
  else rs.

(** One round of [for i in range(n + 1)]. *)
Definition render_pos (rs : rstate) (i : nat) : rstate :=
  char_phase i (open_phase i (close_phase i rs)).

(** The list [out] at the end: the walk, then the safety-net closing of
    whatever is still open, top first. *)
Definition render : list pystr :=
  let rs := fold_left render_pos (seq 0 (S (List.length text))) {| out := []; stk := [] |} in
  out rs ++ map close_of (stk rs).

End Render.

(** [to_telegram_html] (lines 148-214). *)
Definition telegram_out (text : pystr) (entities : option (list entity)) : result (list pystr) :=
  match text with
  | [] => Ok []
  | _ =>
      match merge_mergeable_spans text (build_raw_spans text entities) with
      | Raise e => Raise e
      | Ok spans => Ok (render text spans)
      end
  end.

Definition to_telegram_html (text : pystr) (entities : option (list entity)) : result pystr :=
  match telegram_out text entities with
  | Raise e => Raise e
  | Ok o => Ok (List.concat o)
  end.

(** ** Message handlers: [handle_text] and [handle_caption] (lines 245-253)

    [m.text] / [m.caption] may be [None]; [to_telegram_html] returns [""]
    for it ([not None]).  The answer sent is
    [html_str or html_escape(m.text or "")]; an exception propagates out of
    the handler and nothing is sent. *)
Definition handle_reply (m_text : option pystr) (ents : option (list entity)) : result pystr :=
  let html_str :=
    match m_text with
    | None => Ok []
    | Some t => to_telegram_html t ents
    end in
  match html_str with
  | Raise e => Raise e
  | Ok [] => Ok (html_escape (match m_text with Some t => t | None => [] end))
  | Ok h => Ok h
  end.

(** ** Sample inputs *)

Definition ent (addr : Z) (t : etype) (off len : Z) : entity :=
  {| e_addr := addr; e_type := t; e_offset := off; e_length := len;
     e_url := None; e_user := None |}.

Definition link_ent (addr : Z) (off len : Z) (url : pystr) : entity :=
  {| e_addr := addr; e_type := TextLink; e_offset := off; e_length := len;
     e_url := Some url; e_user := None |}.

Definition mention_ent (addr : Z) (off len : Z) (uid : Z) : entity :=
  {| e_addr := addr; e_type := TextMention; e_offset := off; e_length := len;
     e_url := None; e_user := Some uid |}.

(** ["😀abc"]: U+1F600 then three ASCII letters. *)
Definition emoji_abc : pystr := 128512 :: lit "abc".

(** ** Auxiliary notions for the properties below *)

(** The relation between consecutive merged spans of one kind: the first
    ends before the second starts, and the text between them holds a
    non-whitespace character. *)
Definition separated (text : pystr) (a b : span) : Prop :=
  (sp_end a < sp_start b)%nat
  /\ existsb (fun c => negb (py_isspace c)) (py_slice text (sp_end a) (sp_start b)) = true.

Definition start_le (a b : span) : Prop := (sp_start a <= sp_start b)%nat.

(** The text of the pieces, piece by piece. *)
Definition piece_text (o : list pystr) : pystr := List.concat (map strip_tags o).

(** * Properties *)

(** ** Offset translator *)

Lemma units_of_pos (c : Z) : 1 <= units_of c <= 2.
Proof. unfold units_of; destruct (c >? 65535); lia. Qed.

Lemma utf16_len_cons (c : Z) (s : pystr) : utf16_len (c :: s) = units_of c + utf16_len s.
Proof. reflexivity. Qed.

Lemma utf16_len_nonneg (s : pystr) : 0 <= utf16_len s.
Proof.
  induction s as [|c s IH]; [simpl; lia|].
  rewrite utf16_len_cons; pose proof (units_of_pos c); lia.
Qed.

Lemma utf16_len_firstn_le (j : nat) (s : pystr) : utf16_len (firstn j s) <= utf16_len s.
Proof.
  revert j; induction s as [|c s IH]; intros [|j].
  - simpl; lia.
  - simpl; lia.
  - pose proof (utf16_len_nonneg (c :: s)); simpl firstn; simpl utf16_len at 1; lia.
  - simpl firstn; rewrite !utf16_len_cons; specialize (IH j); lia.
Qed.

Lemma utf16_scan_bmp (p : Z) (s : pystr) (u : Z) (i : nat) :
  Forall (fun c => c <= 65535) s ->
  utf16_scan s p u i = (i + Nat.min (List.length s) (Z.to_nat (p - u)))%nat.
Proof.
  intros Hb; revert u i; induction Hb as [|c s Hc Hb IH]; intros u i; simpl.
  - lia.
  - destruct (Z.ltb_spec u p).
    + rewrite IH. unfold units_of.
      replace (c >? 65535) with false by (rewrite Z.gtb_ltb; symmetry; apply Z.ltb_ge; lia).
      replace (p - u) with (Z.succ (p - (u + 1))) by lia.
      rewrite Z2Nat.inj_succ by lia. simpl Nat.min. lia.
    + replace (Z.to_nat (p - u)) with 0%nat by lia. lia.
Qed.

(** The scan stops at the first count of characters whose units reach
    [p], or at the end of the text. *)
Lemma utf16_scan_spec (p : Z) (s : pystr) (u : Z) (i : nat) :
  let r := utf16_scan s p u i in
  (i <= r <= i + List.length s)%nat
  /\ (forall j, (j < r - i)%nat -> u + utf16_len (firstn j s) < p)
  /\ (r = (i + List.length s)%nat \/ p <= u + utf16_len (firstn (r - i) s)).
Proof.
  revert u i; induction s as [|c s IH]; intros u i; simpl.
  - split; [lia|]. split; [intros; lia|]. left; lia.
  - destruct (Z.ltb_spec u p) as [Hlt|Hge].
    + destruct (IH (u + units_of c) (S i)) as [H1 [H2 H3]].
      set (r := utf16_scan s p (u + units_of c) (S i)) in *.
      split; [lia|]. split.
      * intros [|j] Hj; simpl firstn.
        -- simpl; lia.
        -- rewrite utf16_len_cons. specialize (H2 j ltac:(lia)); lia.
      * destruct H3 as [H3|H3]; [left; lia|right].
        replace (r - i)%nat with (S (r - S i)) by lia. simpl firstn.
        rewrite utf16_len_cons; lia.
    + split; [lia|]. split; [intros; lia|].
      right. replace (i - i)%nat with 0%nat by lia. simpl; lia.
Qed.

(** C4: the contract of [utf16_units_to_py_index].  Non-positive
    positions give 0; on BMP-only text the translation is the identity up
    to the length; otherwise the result is the number of characters
    scanned, stopping at the first prefix whose UTF-16 units (2 for code
    points above 0xFFFF, 1 for the others) reach the position, or at the
    end of the text; a position past the text's total units gives its
    length. *)
Theorem utf16_units_to_py_index_contract :
  (forall s u, u <= 0 -> utf16_units_to_py_index s u = 0%nat)
  /\ (forall s k, Forall (fun c => c <= 65535) s -> (k <= List.length s)%nat ->
        utf16_units_to_py_index s (Z.of_nat k) = k)
  /\ (forall s u, 0 < u ->
        let r := utf16_units_to_py_index s u in
        (r <= List.length s)%nat
        /\ (forall j, (j < r)%nat -> utf16_len (firstn j s) < u)
        /\ (r = List.length s \/ u <= utf16_len (firstn r s)))
  /\ (forall s u, utf16_len s < u -> utf16_units_to_py_index s u = List.length s).
Proof.
  assert (Hpos : forall s u, 0 < u ->
            utf16_units_to_py_index s u = utf16_scan s u 0 0).
  { intros s u Hu; unfold utf16_units_to_py_index.
    replace (u <=? 0) with false by (symmetry; apply Z.leb_gt; lia); reflexivity. }
  assert (Hspec : forall s u, 0 < u ->
        let r := utf16_units_to_py_index s u in
        (r <= List.length s)%nat
        /\ (forall j, (j < r)%nat -> utf16_len (firstn j s) < u)
        /\ (r = List.length s \/ u <= utf16_len (firstn r s))).
  { intros s u Hu r. subst r. rewrite (Hpos s u Hu).
    destruct (utf16_scan_spec u s 0 0) as [H1 [H2 H3]].
    rewrite Nat.sub_0_r in H2, H3.
    split; [lia|]. split.
    - intros j Hj; specialize (H2 j Hj); lia.
    - destruct H3; [left; lia | right; lia]. }
  split; [|split; [|split]].
  - intros s u Hu; unfold utf16_units_to_py_index.
    replace (u <=? 0) with true by (symmetry; apply Z.leb_le; lia); reflexivity.
  - intros s k Hb Hk. destruct k as [|k].
    + reflexivity.
    + rewrite Hpos by lia. rewrite utf16_scan_bmp by exact Hb.
      rewrite Z.sub_0_r, Nat2Z.id. lia.
  - exact Hspec.
  - intros s u Hu. pose proof (utf16_len_nonneg s).
    destruct (Hspec s u ltac:(lia)) as [H1 [_ [H3|H3]]]; [exact H3|].
    pose proof (utf16_len_firstn_le (utf16_units_to_py_index s u) s). lia.
Qed.

Lemma utf16_units_to_py_index_contract_witness :
  utf16_units_to_py_index (lit "abc") (-1) = 0%nat
  /\ utf16_units_to_py_index (lit "abc") 2 = 2%nat
  /\ utf16_units_to_py_index emoji_abc 1 = 1%nat
  /\ utf16_units_to_py_index emoji_abc 9 = 4%nat.
Proof.
  destruct utf16_units_to_py_index_contract as [Ha [Hb [Hc Hd]]].
  split; [apply Ha; lia|]. split.
  - apply (Hb (lit "abc") 2%nat); [repeat constructor; simpl; lia | simpl; lia].
  - split.
    + destruct (Hc emoji_abc 1 ltac:(lia)) as [_ [Hlt _]].
      assert (H0 : utf16_units_to_py_index emoji_abc 1 <> 0%nat)
        by (vm_compute; discriminate).
      assert (H1 : ~ (1 < utf16_units_to_py_index emoji_abc 1)%nat).
      { intro H; specialize (Hlt 1%nat H); vm_compute in Hlt; discriminate. }
      lia.
    + apply Hd; vm_compute; reflexivity.
Defined.

(** ** Rendering "😀abc" *)

(** C3, as stated: the output is exactly ["<b>abc</b>"].  It is not. *)
Lemma emoji_bold_not_only_tagged :
  to_telegram_html emoji_abc (Some [ent 4242 Bold 2 3]) <> Ok (lit "<b>abc</b>").
Proof. vm_compute. discriminate. Qed.

(** C3, as the code does it: offset 2 skips the two-unit emoji, so the
    bold span covers ["abc"], and the emoji itself is echoed before it. *)
Theorem emoji_bold_output :
  utf16_units_to_py_index emoji_abc 2 = 1%nat
  /\ build_raw_spans emoji_abc (Some [ent 4242 Bold 2 3])
     = [mk_span 4242 Bold 1 4 (lit "<b>") (lit "</b>") 10]
  /\ to_telegram_html emoji_abc (Some [ent 4242 Bold 2 3])
     = Ok (128512 :: lit "<b>abc</b>").
Proof. vm_compute. repeat split. Qed.

(** ** Builder lemmas *)

Lemma build_raw_spans_some (text : pystr) (es : list entity) :
  build_raw_spans text (Some es) = build_loop text es.
Proof. destruct es; reflexivity. Qed.

Lemma build_loop_app (text : pystr) (es1 es2 : list entity) :
  build_loop text (es1 ++ es2) = build_loop text es1 ++ build_loop text es2.
Proof.
  induction es1 as [|e es1 IH]; [reflexivity|].
  simpl; destruct (build_one text e); rewrite IH; reflexivity.
Qed.

(** An entity for which [build_one] gives nothing can be removed. *)
Lemma build_raw_spans_skip (text : pystr) (es1 es2 : list entity) (e : entity) :
  build_one text e = None ->
  build_raw_spans text (Some (es1 ++ e :: es2)) = build_raw_spans text (Some (es1 ++ es2)).
Proof.
  intros He. rewrite !build_raw_spans_some, !build_loop_app. simpl. rewrite He. reflexivity.
Qed.

Lemma build_one_id (text : pystr) (e : entity) (s : span) :
  build_one text e = Some s -> sp_id s = e_addr e.
Proof.
  unfold build_one. intros H.
  repeat match type of H with
         | context [match ?x with _ => _ end] => destruct x
         end; try discriminate.
  all: injection H as <-; reflexivity.
Qed.

Lemma build_loop_ids (text : pystr) (es : list entity) (x : Z) :
  In x (map sp_id (build_loop text es)) -> In x (map e_addr es).
Proof.
  induction es as [|e es IH]; simpl; [tauto|].
  destruct (build_one text e) as [s|] eqn:He; simpl.
  - rewrite (build_one_id text e s He). intros [H|H]; [left; exact H | right; auto].
  - intros H; right; auto.
Qed.

(** ** Rendering without spans *)

Lemma render_nil_pos (text : pystr) (rs : rstate) (i : nat) :
  render_pos text [] rs i = char_phase text i rs.
Proof. reflexivity. Qed.

Lemma char_phase_fold (text : pystr) (l : list nat) (o : list pystr) (st : list Z) :
  (forall i, In i l -> (i < List.length text)%nat) ->
  fold_left (fun rs i => char_phase text i rs) l {| out := o; stk := st |}
  = {| out := o ++ map (fun i => html_escape [nth i text 0]) l; stk := st |}.
Proof.
  revert o; induction l as [|i l IH]; intros o Hl; simpl.
  - rewrite app_nil_r; reflexivity.
  - unfold char_phase at 2. simpl.
    replace (i <? List.length text)%nat with true
      by (symmetry; apply Nat.ltb_lt; apply Hl; left; reflexivity).
    simpl. rewrite IH by (intros j Hj; apply Hl; right; exact Hj).
    rewrite <- app_assoc. reflexivity.
Qed.

Lemma escape_by_index (text : pystr) :
  List.concat (map (fun i => html_escape [nth i text 0]) (seq 0 (List.length text)))
  = html_escape text.
Proof.
  induction text as [|c t IH]; [reflexivity|].
  change (List.length (c :: t)) with (S (List.length t)).
  change (seq 0 (S (List.length t))) with (0%nat :: seq 1 (List.length t)).
  rewrite <- seq_shift. cbn [map List.concat]. rewrite map_map. simpl nth.
  rewrite IH. unfold html_escape; simpl. rewrite app_nil_r. reflexivity.
Qed.

Lemma render_nil (text : pystr) :
  List.concat (render text []) = html_escape text.
Proof.
  unfold render.
  replace (fold_left (render_pos text []) (seq 0 (S (List.length text)))
             {| out := []; stk := [] |})
    with (fold_left (fun rs i => char_phase text i rs) (seq 0 (S (List.length text)))
             {| out := []; stk := [] |}) by reflexivity.
  rewrite seq_S, fold_left_app, char_phase_fold.
  - simpl. unfold char_phase. rewrite Nat.ltb_irrefl. simpl.
    rewrite app_nil_r. apply escape_by_index.
  - intros i Hi. apply in_seq in Hi. lia.
Qed.

(** C9: empty text gives the empty string whatever the entities; when no
    span survives building and merging (in particular with no entities at
    all) the output is the escaped text. *)
Theorem no_spans_output :
  (forall ents, to_telegram_html [] ents = Ok [])
  /\ (forall text ents, text <> [] ->
        merge_mergeable_spans text (build_raw_spans text ents) = Ok [] ->
        to_telegram_html text ents = Ok (html_escape text))
  /\ (forall text, build_raw_spans text None = [] /\ build_raw_spans text (Some []) = [])
  /\ (forall text, text <> [] ->
        to_telegram_html text None = Ok (html_escape text)
        /\ to_telegram_html text (Some []) = Ok (html_escape text)).
Proof.
  assert (Hm : forall text ents, text <> [] ->
        merge_mergeable_spans text (build_raw_spans text ents) = Ok [] ->
        to_telegram_html text ents = Ok (html_escape text)).
  { intros text ents Hne Hmerge. unfold to_telegram_html, telegram_out.
    destruct text as [|c t]; [contradiction|].
    rewrite Hmerge. rewrite render_nil. reflexivity. }
  split; [reflexivity|]. split; [exact Hm|]. split; [split; reflexivity|].
  intros text Hne; split; apply Hm; auto.
Qed.

Lemma no_spans_output_witness :
  to_telegram_html (lit "a<b") None = Ok (lit "a&lt;b")
  /\ to_telegram_html (lit "x&") (Some [ent 9 Bold 0 0]) = Ok (lit "x&amp;").
Proof.
  destruct no_spans_output as [_ [Hm [_ Hn]]]. split.
  - apply (Hn (lit "a<b")). discriminate.
  - apply (Hm (lit "x&") (Some [ent 9 Bold 0 0])); [discriminate | vm_compute; reflexivity].
Defined.

(** ** Entities the builder drops *)

Lemma drop_space_blank (s : pystr) : forallb py_isspace s = true -> drop_space s = [].
Proof.
  induction s as [|c s IH]; [reflexivity|].
  simpl. intros H. apply andb_true_iff in H as [Hc Hs]. rewrite Hc. auto.
Qed.

Lemma py_strip_blank (s : pystr) : forallb py_isspace s = true -> py_strip s = [].
Proof. intros H. unfold py_strip. rewrite (drop_space_blank s H). reflexivity. Qed.

(** C10: a [text_mention] whose user has id 0 yields no span, exactly as
    one without a user; it can be removed from the entity list, and alone
    it leaves the text as plain escaped text. *)
Theorem text_mention_zero_id_dropped :
  (forall text e, e_type e = TextMention -> e_user e = Some 0 -> build_one text e = None)
  /\ (forall text e, e_type e = TextMention -> e_user e = None -> build_one text e = None)
  /\ (forall text es1 es2 e, e_type e = TextMention -> e_user e = Some 0 ->
        build_raw_spans text (Some (es1 ++ e :: es2)) = build_raw_spans text (Some (es1 ++ es2)))
  /\ (forall text e, text <> [] -> e_type e = TextMention -> e_user e = Some 0 ->
        to_telegram_html text (Some [e]) = Ok (html_escape text)).
Proof.
  assert (H0 : forall text e, e_type e = TextMention -> e_user e = Some 0 ->
                 build_one text e = None).
  { intros text e Ht Hu. unfold build_one. rewrite Ht, Hu. simpl.
    destruct (orb _ _); reflexivity. }
  split; [exact H0|]. split.
  - intros text e Ht Hu. unfold build_one. rewrite Ht, Hu. simpl.
    destruct (orb _ _); reflexivity.
  - split.
    + intros text es1 es2 e Ht Hu. apply build_raw_spans_skip. apply H0; assumption.
    + intros text e Hne Ht Hu. apply (proj1 (proj2 no_spans_output)); [exact Hne|].
      rewrite build_raw_spans_some. simpl. rewrite (H0 text e Ht Hu). reflexivity.
Qed.

Lemma text_mention_zero_id_dropped_witness :
  build_one (lit "hi @x") (mention_ent 31 3 2 0) = None
  /\ build_one (lit "hi @x") (ent 31 TextMention 3 2) = None
  /\ build_raw_spans (lit "hi @x") (Some ([ent 30 Bold 0 2] ++ mention_ent 31 3 2 0 :: []))
     = build_raw_spans (lit "hi @x") (Some ([ent 30 Bold 0 2] ++ []))
  /\ to_telegram_html (lit "hi @x") (Some [mention_ent 31 3 2 0]) = Ok (html_escape (lit "hi @x")).
Proof.
  destruct text_mention_zero_id_dropped as [Ha [Hb [Hc Hd]]].
  split; [apply Ha; reflexivity|]. split; [apply Hb; reflexivity|]. split.
  - apply Hc; reflexivity.
  - apply Hd; [discriminate | reflexivity | reflexivity].
Defined.

(** C7: an entity of a mergeable kind whose covered substring is all
    whitespace yields no span and can be removed from the entity list;
    ["a  b"] with bold over the two spaces renders unchanged. *)
Theorem mergeable_blank_dropped :
  (forall text e, is_mergeable (e_type e) = true ->
        forallb py_isspace (covered text e) = true -> build_one text e = None)
  /\ (forall text es1 es2 e, is_mergeable (e_type e) = true ->
        forallb py_isspace (covered text e) = true ->
        build_raw_spans text (Some (es1 ++ e :: es2)) = build_raw_spans text (Some (es1 ++ es2)))
  /\ to_telegram_html (lit "a  b") (Some [ent 77 Bold 1 2]) = Ok (lit "a  b").
Proof.
  assert (H0 : forall text e, is_mergeable (e_type e) = true ->
        forallb py_isspace (covered text e) = true -> build_one text e = None).
  { intros text e Hm Hb. unfold covered in Hb. unfold build_one. cbv zeta.
    rewrite (py_strip_blank _ Hb).
    destruct (e_type e); try discriminate Hm; simpl; destruct (orb _ _); reflexivity. }
  split; [exact H0|]. split.
  - intros text es1 es2 e Hm Hb. apply build_raw_spans_skip, H0; assumption.
  - vm_compute. reflexivity.
Qed.

Lemma mergeable_blank_dropped_witness :
  build_one (lit "a  b") (ent 77 Bold 1 2) = None
  /\ build_raw_spans (lit "a  b") (Some ([ent 76 Italic 0 1] ++ ent 77 Bold 1 2 :: []))
     = build_raw_spans (lit "a  b") (Some ([ent 76 Italic 0 1] ++ [])).
Proof.
  destruct mergeable_blank_dropped as [Ha [Hb _]]. split.
  - apply Ha; vm_compute; reflexivity.
  - apply Hb; vm_compute; reflexivity.
Defined.

(** ** Span identities *)

(** C8, as stated: the same entity object listed twice gives two spans
    with one identity ([id(e)]). *)
Lemma same_entity_twice_same_id :
  ~ NoDup (map sp_id (build_raw_spans (lit "ab") (Some [ent 5 Bold 0 1; ent 5 Bold 0 1]))).
Proof.
  vm_compute. intros H. inversion H as [|x l Hnin _]. apply Hnin. left. reflexivity.
Qed.

(** C8, as the code does it: a span's identity is its entity's [id(e)],
    so distinct entity objects (even with equal contents) give spans with
    distinct identities. *)
Theorem build_ids_distinct (text : pystr) (es : list entity) :
  NoDup (map e_addr es) -> NoDup (map sp_id (build_raw_spans text (Some es))).
Proof.
  rewrite build_raw_spans_some. induction es as [|e es IH]; intros Hd; simpl.
  - constructor.
  - inversion Hd as [|x l Hnin Hd']; subst.
    destruct (build_one text e) as [s|] eqn:He; simpl; [|auto].
    constructor; [|auto].
    rewrite (build_one_id text e s He). intros Hin. apply Hnin.
    apply (build_loop_ids text es). exact Hin.
Qed.

Lemma build_ids_distinct_witness :
  NoDup (map e_addr [ent 1 Bold 0 1; ent 2 Bold 0 1])
  /\ NoDup (map sp_id (build_raw_spans (lit "ab") (Some [ent 1 Bold 0 1; ent 2 Bold 0 1]))).
Proof.
  assert (H : NoDup (map e_addr [ent 1 Bold 0 1; ent 2 Bold 0 1])).
  { simpl. constructor; [simpl; intros [H|H]; [discriminate|exact H]|].
    constructor; [simpl; tauto | constructor]. }
  split; [exact H|]. apply build_ids_distinct. exact H.
Defined.

(** ** Span merger *)

Lemma etype_eqb_spec (a b : etype) : etype_eqb a b = true <-> a = b.
Proof.
  split.
  - destruct a, b; simpl; try discriminate; try reflexivity.
    destruct (list_eq_dec Z.eq_dec name name0) as [->|]; [reflexivity | discriminate].
  - intros ->. destruct b; try reflexivity. simpl.
    destruct (list_eq_dec Z.eq_dec name name) as [|n]; [reflexivity | contradiction].
Qed.

Lemma insert_se_perm (x : span) (l : list span) : Permutation (x :: l) (insert_se x l).
Proof.
  induction l as [|y l IH]; simpl; [reflexivity|].
  destruct (se_ltb x y); [reflexivity|].
  transitivity (y :: x :: l); [apply perm_swap | constructor; exact IH].
Qed.

Lemma sort_se_perm (l : list span) : Permutation l (sort_se l).
Proof.
  unfold sort_se. change l with ([] ++ l) at 1. generalize (@nil span) as acc.
  induction l as [|x l IH]; intros acc; simpl; [rewrite app_nil_r; reflexivity|].
  rewrite <- IH. rewrite <- Permutation_middle.
  change (x :: acc ++ l) with ((x :: acc) ++ l).
  apply Permutation_app_tail, insert_se_perm.
Qed.

Lemma se_ltb_leb (x y : span) : se_ltb x y = true -> se_leb x y = true.
Proof.
  unfold se_ltb, se_leb. rewrite !orb_true_iff, !andb_true_iff, !Nat.ltb_lt, !Nat.leb_le.
  intros [H|[H1 H2]]; [left; exact H | right; split; [exact H1 | lia]].
Qed.

Lemma se_ltb_false (x y : span) : se_ltb x y = false -> se_leb y x = true.
Proof.
  unfold se_ltb, se_leb. intros H. apply orb_false_iff in H as [H1 H2].
  apply Nat.ltb_ge in H1. apply orb_true_iff.
  destruct (Nat.eq_dec (sp_start x) (sp_start y)) as [E|E].
  - right. rewrite E, Nat.eqb_refl in H2 |- *. simpl in H2 |- *.
    apply Nat.ltb_ge in H2. apply Nat.leb_le. exact H2.
  - left. apply Nat.ltb_lt. lia.
Qed.

Lemma insert_se_sorted (x : span) (l : list span) :
  Sorted (fun a b => se_leb a b = true) l ->
  Sorted (fun a b => se_leb a b = true) (insert_se x l).
Proof.
  induction l as [|y l IH]; intros Hs; simpl.
  - repeat constructor.
  - destruct (se_ltb x y) eqn:E.
    + constructor; [exact Hs | constructor; apply se_ltb_leb; exact E].
    + apply Sorted_inv in Hs as [Hl Hh]. constructor; [apply IH; exact Hl|].
      destruct l as [|z l]; simpl.
      * constructor. apply se_ltb_false. exact E.
      * destruct (se_ltb x z); constructor.
        -- apply se_ltb_false. exact E.
        -- inversion Hh; assumption.
Qed.

Lemma sort_se_sorted (l : list span) : Sorted (fun a b => se_leb a b = true) (sort_se l).
Proof.
  unfold sort_se. assert (H : Sorted (fun a b => se_leb a b = true) (@nil span)) by constructor.
  revert H. generalize (@nil span) as acc.
  induction l as [|x l IH]; intros acc Hacc; simpl; [exact Hacc|].
  apply IH, insert_se_sorted, Hacc.
Qed.

Lemma merge_scan_type (text : pystr) (t : etype) (cur : span) (rest : list span) :
  Forall (fun s => sp_type s = t) (cur :: rest) ->
  Forall (fun s => sp_type s = t) (merge_scan text cur rest).
Proof.
  revert cur; induction rest as [|nxt r IH]; intros cur Hf; simpl; [exact Hf|].
  apply Forall_cons_iff in Hf as [Hc Hr]. apply Forall_cons_iff in Hr as [Hn Hr'].
  destruct (_ && _).
  - constructor; [exact Hc | apply IH; constructor; assumption].
  - apply IH. constructor; [exact Hc | exact Hr'].
Qed.

Lemma merge_kind_type (text : pystr) (t : etype) (spans : list span) :
  Forall (fun s => sp_type s = t) (merge_kind text (sort_se (filter (of_type t) spans))).
Proof.
  assert (Hf : Forall (fun s => sp_type s = t) (sort_se (filter (of_type t) spans))).
  { apply Forall_forall. intros x Hx.
    apply (Permutation_in _ (Permutation_sym (sort_se_perm _))) in Hx.
    apply filter_In in Hx as [_ Hx]. apply etype_eqb_spec. exact Hx. }
  destruct (sort_se (filter (of_type t) spans)) as [|a r]; [constructor|].
  apply merge_scan_type. exact Hf.
Qed.

Lemma filter_kind (text : pystr) (t t' : etype) (spans : list span) :
  filter (of_type t) (merge_kind text (sort_se (filter (of_type t') spans)))
  = if etype_eqb t' t then merge_kind text (sort_se (filter (of_type t') spans)) else [].
Proof.
  pose proof (merge_kind_type text t' spans) as Hf.
  induction Hf as [|x l Hx Hl IH]; [destruct (etype_eqb t' t); reflexivity|].
  simpl. unfold of_type at 1. rewrite Hx.
  destruct (etype_eqb t' t); rewrite IH; reflexivity.
Qed.

Lemma merge_gap_test (g : pystr) :
  negb (match g with [] => true | _ => false end) && negb (py_str_isspace g)
  = (0 <? List.length g)%nat && existsb (fun c => negb (py_isspace c)) g.
Proof.
  assert (H : forall l, negb (forallb py_isspace l) = existsb (fun c => negb (py_isspace c)) l).
  { induction l as [|c l IH]; [reflexivity|]. simpl. rewrite <- IH.
    destruct (py_isspace c); reflexivity. }
  destruct g as [|c g]; [reflexivity|]. unfold py_str_isspace. rewrite H. reflexivity.
Qed.

Lemma merge_scan_refines (text : pystr) (cur : span) (rest : list span) :
  merge_scan text cur rest = merge_scan_as_specified text cur rest.
Proof.
  revert cur; induction rest as [|nxt r IH]; intros cur; simpl; [reflexivity|].
  rewrite merge_gap_test. destruct (_ && _); rewrite IH; reflexivity.
Qed.

Lemma filter_others_mergeable (t : etype) (spans : list span) :
  is_mergeable t = true ->
  filter (of_type t) (filter (fun s => negb (is_mergeable (sp_type s))) spans) = [].
Proof.
  intros Hm. induction spans as [|s r IH]; [reflexivity|]. simpl.
  destruct (is_mergeable (sp_type s)) eqn:E; simpl; [exact IH|].
  unfold of_type at 1. destruct (etype_eqb (sp_type s) t) eqn:F; [|exact IH].
  apply etype_eqb_spec in F. rewrite F, Hm in E. discriminate.
Qed.

(** The merger on lists of mergeable spans only, kind by kind.  [sort_se] orders by [(start, end)] and
    keeps the spans; the spans of a mergeable kind in the result are
    exactly the accumulator scan described by the specification, run on
    that kind's sorted spans, and other spans pass through; two bold
    spans over ["AB"] and ["CD"] of ["AB  CD"] merge into one span and
    render as ["<b>AB  CD</b>"]. *)
Theorem merge_mergeable_spans_contract :
  (forall l, Sorted (fun a b => se_leb a b = true) (sort_se l) /\ Permutation l (sort_se l))
  /\ (forall text spans res t,
        merge_mergeable_spans text spans = Ok res -> is_mergeable t = true ->
        filter (of_type t) res
        = merge_kind_as_specified text (sort_se (filter (of_type t) spans)))
  /\ (forall text spans res,
        merge_mergeable_spans text spans = Ok res ->
        filter (fun s => negb (is_mergeable (sp_type s))) res
        = filter (fun s => negb (is_mergeable (sp_type s))) spans)
  /\ merge_mergeable_spans (lit "AB  CD")
       (build_raw_spans (lit "AB  CD") (Some [ent 100 Bold 0 2; ent 101 Bold 4 2]))
     = Ok [mk_span 100 Bold 0 6 (lit "<b>") (lit "</b>") 10]
  /\ to_telegram_html (lit "AB  CD") (Some [ent 100 Bold 0 2; ent 101 Bold 4 2])
     = Ok (lit "<b>AB  CD</b>").
Proof.
  split; [intros l; split; [apply sort_se_sorted | apply sort_se_perm]|].
  split; [|split; [|split; vm_compute; reflexivity]].
  - intros text spans res t H Hm. unfold merge_mergeable_spans in H.
    destruct (existsb _ spans); [discriminate|]. injection H as <-.
    assert (Hk : merge_kind text (sort_se (filter (of_type t) spans))
                 = merge_kind_as_specified text (sort_se (filter (of_type t) spans))).
    { destruct (sort_se _); [reflexivity | apply merge_scan_refines]. }
    rewrite filter_app, filter_others_mergeable by exact Hm.
    cbn [flat_map MERGEABLE]. rewrite !filter_app, !filter_kind.
    destruct t; try discriminate Hm; simpl; rewrite !app_nil_r; exact Hk.
  - intros text spans res H. unfold merge_mergeable_spans in H.
    destruct (existsb _ spans) eqn:E; [discriminate|]. injection H as <-.
    assert (Hn : forall l, Forall (fun s => is_mergeable (sp_type s) = true) l ->
                 filter (fun s => negb (is_mergeable (sp_type s))) l = []).
    { intros l Hl. induction Hl as [|s l Hs Hl IH]; [reflexivity|].
      simpl. rewrite Hs. exact IH. }
    assert (He : forall l, existsb (fun s => negb (is_mergeable (sp_type s))) l = false ->
                 Forall (fun s => is_mergeable (sp_type s) = true) l).
    { induction l as [|s l IH]; intros F; [constructor|]. simpl in F.
      apply orb_false_iff in F as [F1 F2]. constructor; [|apply IH, F2].
      apply negb_false_iff, F1. }
    assert (F1 : Forall (fun s => is_mergeable (sp_type s) = true) spans) by (apply He, E).
    assert (F3 : Forall (fun s => is_mergeable (sp_type s) = true)
                   (filter (fun s => negb (is_mergeable (sp_type s))) spans)).
    { apply Forall_forall. intros x Hx. apply filter_In in Hx as [Hx _].
      rewrite Forall_forall in F1. apply F1, Hx. }
    assert (F2 : Forall (fun s => is_mergeable (sp_type s) = true)
              (flat_map (fun t => merge_kind text (sort_se (filter (of_type t) spans)))
                 MERGEABLE)).
    { apply Forall_forall. intros x Hx. apply in_flat_map in Hx as [t' [Ht' Hx]].
      pose proof (merge_kind_type text t' spans) as K. rewrite Forall_forall in K.
      rewrite (K x Hx). destruct Ht' as [<-|[<-|[<-|[<-|[]]]]]; reflexivity. }
    cbn [flat_map MERGEABLE] in F2.
    rewrite filter_app, (Hn _ F2), (Hn _ F3), (Hn _ F1). reflexivity.
Qed.

Lemma merge_mergeable_spans_contract_witness :
  filter (of_type Bold) [mk_span 100 Bold 0 6 (lit "<b>") (lit "</b>") 10]
  = merge_kind_as_specified (lit "AB  CD")
      (sort_se (filter (of_type Bold)
         (build_raw_spans (lit "AB  CD") (Some [ent 100 Bold 0 2; ent 101 Bold 4 2]))))
  /\ filter (fun s => negb (is_mergeable (sp_type s))) [mk_span 100 Bold 0 6 (lit "<b>") (lit "</b>") 10]
     = filter (fun s => negb (is_mergeable (sp_type s)))
         (build_raw_spans (lit "AB  CD") (Some [ent 100 Bold 0 2; ent 101 Bold 4 2])).
Proof.
  destruct merge_mergeable_spans_contract as [_ [H2 [H3 [H4 _]]]]. split.
  - apply (H2 _ _ _ Bold H4). reflexivity.
  - apply (H3 _ _ _ H4).
Defined.

(** C5: the merger raises as soon as a span of a kind other than bold,
    italic, underline or strikethrough is present (line 121 calls
    [setdefault] on the list [others]), before any sorting or scanning.
    On ["AB  CD x"] with bold over ["AB"], bold over ["CD"] and a code
    span over ["x"], [merge_mergeable_spans] and [to_telegram_html] raise
    [AttributeError]; the partition of lines 123-146 alone, whose scan of
    each kind is the accumulator scan of the specification, would merge
    the two bold spans into one span over [0,6), keep the code span and
    render ["<b>AB  CD</b> <code>x</code>"]. *)
Theorem mixed_spans_merge_raises :
  merge_mergeable_spans (lit "AB  CD x")
    (build_raw_spans (lit "AB  CD x") (Some [ent 100 Bold 0 2; ent 101 Bold 4 2; ent 102 Code 7 1]))
  = Raise AttributeError
  /\ to_telegram_html (lit "AB  CD x") (Some [ent 100 Bold 0 2; ent 101 Bold 4 2; ent 102 Code 7 1])
     = Raise AttributeError
  /\ (forall text arr, merge_kind text arr = merge_kind_as_specified text arr)
  /\ (let sp := build_raw_spans (lit "AB  CD x")
                  (Some [ent 100 Bold 0 2; ent 101 Bold 4 2; ent 102 Code 7 1]) in
      let merged := flat_map (fun t => merge_kind (lit "AB  CD x") (sort_se (filter (of_type t) sp)))
                      MERGEABLE
                    ++ filter (fun s => negb (is_mergeable (sp_type s))) sp in
      merged = [mk_span 100 Bold 0 6 (lit "<b>") (lit "</b>") 10;
                mk_span 102 Code 7 8 (lit "<code>") (lit "</code>") 20]
      /\ List.concat (render (lit "AB  CD x") merged)
         = lit "<b>AB  CD</b> <code>x</code>").
Proof.
  split; [vm_compute; reflexivity|]. split; [vm_compute; reflexivity|].
  split; [|split; vm_compute; reflexivity].
  intros text arr. destruct arr; [reflexivity | apply merge_scan_refines].
Qed.

(** ** Renderer invariants

    Any property of the renderer state that the three primitive moves
    keep (emit an open tag and push, emit a close tag and pop the top,
    emit one escaped character) holds of the final [out]. *)

Lemma insert_key_in (x y : Z * Z * Z) (l : list (Z * Z * Z)) :
  In y (insert_key x l) <-> x = y \/ In y l.
Proof.
  induction l as [|z l IH]; simpl; [tauto|].
  destruct (key_ltb x z); simpl; rewrite ?IH; tauto.
Qed.

Lemma sort_keys_in (y : Z * Z * Z) (l : list (Z * Z * Z)) : In y (sort_keys l) <-> In y l.
Proof.
  unfold sort_keys.
  assert (H : forall acc, In y (fold_left (fun acc x => insert_key x acc) l acc)
                          <-> In y acc \/ In y l).
  { induction l as [|x l IH]; intros acc; simpl; [tauto|].
    rewrite IH, insert_key_in. tauto. }
  rewrite H. simpl. tauto.
Qed.

Lemma starts_at_ids (spans : list span) (i : nat) (sid : Z) :
  In sid (starts_at spans i) -> In sid (map sp_id spans).
Proof.
  unfold starts_at. intros H. apply in_map_iff in H as [k [<- Hk]].
  apply sort_keys_in, in_map_iff in Hk as [s [<- Hs]].
  apply filter_In in Hs as [Hs _]. simpl. apply in_map. exact Hs.
Qed.

Section RenderInvariant.

Variable text : pystr.
Variable spans : list span.
Variable Inv : rstate -> Prop.

Definition in_ids (sid : Z) : Prop := In sid (map sp_id spans).

Hypothesis inv_stk : forall o st, Inv {| out := o; stk := st |} -> Forall in_ids st.
Hypothesis inv_push : forall o st sid, Inv {| out := o; stk := st |} -> in_ids sid ->
  Inv {| out := o ++ [open_of spans sid]; stk := sid :: st |}.
Hypothesis inv_pop : forall o st sid, Inv {| out := o; stk := sid :: st |} ->
  Inv {| out := o ++ [close_of spans sid]; stk := st |}.
Hypothesis inv_char : forall o st i, Inv {| out := o; stk := st |} ->
  (i < List.length text)%nat -> Inv {| out := o ++ [html_escape [nth i text 0]]; stk := st |}.

Lemma pop_above_inv (sid : Z) (st : list Z) (o : list pystr) (reopen : list Z) :
  Inv {| out := o; stk := st |} -> Forall in_ids reopen ->
  let '(st', o', re') := pop_above spans sid st o reopen in
  Inv {| out := o'; stk := st' |} /\ Forall in_ids re'.
Proof.
  revert o reopen; induction st as [|top rest IH]; intros o reopen Hi Hr; simpl; [auto|].
  destruct (top =? sid); [auto|].
  apply IH; [apply inv_pop, Hi|].
  apply Forall_app; split; [exact Hr|].
  apply inv_stk in Hi. inversion Hi; subst. constructor; [assumption | constructor].
Qed.

Lemma push_fold_inv (l : list Z) (st : list Z) (o : list pystr) :
  Inv {| out := o; stk := st |} -> Forall in_ids l ->
  let '(st', o') := fold_left (fun '(st, o) x => (x :: st, o ++ [open_of spans x])) l (st, o) in
  Inv {| out := o'; stk := st' |}.
Proof.
  revert st o; induction l as [|x l IH]; intros st o Hi Hl; simpl; [exact Hi|].
  inversion Hl; subst. apply IH; [apply inv_push|]; assumption.
Qed.

Lemma close_until_inv (sid : Z) (rs : rstate) : Inv rs -> Inv (close_until spans sid rs).
Proof.
  destruct rs as [o st]. intros Hi. unfold close_until. simpl.
  pose proof (pop_above_inv sid st o [] Hi (Forall_nil _)) as Hp.
  destruct (pop_above spans sid st o []) as [[st1 o1] re].
  destruct Hp as [H1 Hre].
  assert (Hfin : forall st2 o2, Inv {| out := o2; stk := st2 |} ->
     Inv (let '(st3, o3) := fold_left (fun '(st, o) x => (x :: st, o ++ [open_of spans x]))
                                      (rev re) (st2, o2) in {| out := o3; stk := st3 |})).
  { intros st2 o2 H2. pose proof (push_fold_inv (rev re) st2 o2 H2 (Forall_rev Hre)) as H3.
    destruct (fold_left _ _ _) as [st3 o3]. exact H3. }
  destruct st1 as [|top rest]; [apply Hfin, H1|].
  destruct (Z.eqb_spec top sid) as [->|]; apply Hfin; [apply inv_pop, H1 | exact H1].
Qed.

Lemma close_loop_inv (fuel : nat) (to_close : list Z) (rs : rstate) :
  Inv rs -> Inv (close_loop spans fuel to_close rs).
Proof.
  revert to_close rs; induction fuel as [|f IH]; intros to_close rs Hi; simpl; [exact Hi|].
  destruct to_close as [|x r]; [exact Hi|].
  destruct (py_max_fst _) as [[k deepest]|]; [|exact Hi].
  apply IH, close_until_inv, Hi.
Qed.

Lemma open_phase_inv (i : nat) (rs : rstate) : Inv rs -> Inv (open_phase spans i rs).
Proof.
  unfold open_phase. pose proof (starts_at_ids spans i) as Hs.
  revert rs Hs. generalize (starts_at spans i) as l.
  induction l as [|sid l IH]; intros rs Hs Hi; simpl; [exact Hi|].
  apply IH; [intros x Hx; apply Hs; right; exact Hx|].
  destruct rs as [o st]. apply inv_push; [exact Hi | apply Hs; left; reflexivity].
Qed.

Lemma char_phase_inv (i : nat) (rs : rstate) : Inv rs -> Inv (char_phase text i rs).
Proof.
  destruct rs as [o st]. unfold char_phase. simpl. intros Hi.
  destruct (Nat.ltb_spec i (List.length text)); [apply inv_char; assumption | exact Hi].
Qed.

Lemma close_all_inv (o : list pystr) (st : list Z) :
  Inv {| out := o; stk := st |} -> Inv {| out := o ++ map (close_of spans) st; stk := [] |}.
Proof.
  revert o; induction st as [|sid st IH]; intros o Hi; simpl.
  - rewrite app_nil_r. exact Hi.
  - replace (o ++ close_of spans sid :: map (close_of spans) st)
      with ((o ++ [close_of spans sid]) ++ map (close_of spans) st) by (rewrite <- app_assoc; reflexivity).
    apply IH, inv_pop, Hi.
Qed.

Theorem render_inv :
  Inv {| out := []; stk := [] |} -> Inv {| out := render text spans; stk := [] |}.
Proof.
  intros H0. unfold render.
  assert (Hf : forall l rs, Inv rs -> Inv (fold_left (render_pos text spans) l rs)).
  { induction l as [|i l IH]; intros rs Hi; simpl; [exact Hi|].
    apply IH. unfold render_pos.
    apply char_phase_inv, open_phase_inv. unfold close_phase. apply close_loop_inv, Hi. }
  pose proof (Hf (seq 0 (S (List.length text))) _ H0) as H1.
  destruct (fold_left _ _ _) as [o st]. apply close_all_inv, H1.
Qed.

End RenderInvariant.

(** ** Where the pieces of the output come from *)

Lemma escaped_ok_html_escape (s : pystr) : escaped_ok (html_escape s) = true.
Proof.
  induction s as [|c s IH]; [reflexivity|].
  change (html_escape (c :: s)) with (escape_char c ++ html_escape s).
  unfold escape_char.
  destruct (Z.eqb_spec c 38); [simpl; exact IH|].
  destruct (Z.eqb_spec c 60); [simpl; exact IH|].
  destruct (Z.eqb_spec c 62); [simpl; exact IH|].
  destruct (Z.eqb_spec c 34); [simpl; exact IH|].
  destruct (Z.eqb_spec c 39); [simpl; exact IH|].
  simpl. rewrite IH.
  repeat match goal with
         | H : c <> ?k |- _ => rewrite (proj2 (Z.eqb_neq c k) H); clear H
         end.
  reflexivity.
Qed.

Lemma build_one_tags (text : pystr) (e : entity) (s : span) :
  build_one text e = Some s -> tags_from_table s.
Proof.
  unfold build_one. intros H.
  repeat match type of H with
         | context [match ?x with _ => _ end] => destruct x eqn:?
         end; try discriminate.
  all: injection H as <-; unfold tags_from_table; simpl; eauto.
Qed.

Lemma build_tags (text : pystr) (ents : option (list entity)) :
  Forall tags_from_table (build_raw_spans text ents).
Proof.
  destruct ents as [es|]; [|constructor]. rewrite build_raw_spans_some.
  induction es as [|e es IH]; simpl; [constructor|].
  destruct (build_one text e) eqn:He; [|exact IH].
  constructor; [apply (build_one_tags text e), He | exact IH].
Qed.

(** Properties of a span's tags survive the merger. *)
Lemma merge_scan_forall (P : span -> Prop) (text : pystr) (cur : span) (rest : list span) :
  (forall s n, P s -> P (set_end s n)) ->
  Forall P (cur :: rest) -> Forall P (merge_scan text cur rest).
Proof.
  intros HP. revert cur; induction rest as [|nxt r IH]; intros cur Hf; simpl; [exact Hf|].
  apply Forall_cons_iff in Hf as [Hc Hr]. apply Forall_cons_iff in Hr as [Hn Hr'].
  destruct (_ && _).
  - constructor; [exact Hc | apply IH; constructor; assumption].
  - apply IH. constructor; [apply HP, Hc | exact Hr'].
Qed.

Lemma merge_forall (P : span -> Prop) (text : pystr) (spans res : list span) :
  (forall s n, P s -> P (set_end s n)) ->
  merge_mergeable_spans text spans = Ok res -> Forall P spans -> Forall P res.
Proof.
  intros HP H Hs. unfold merge_mergeable_spans in H.
  destruct (existsb _ spans); [discriminate|]. injection H as <-.
  apply Forall_app; split.
  - assert (Hk : forall t, Forall P (merge_kind text (sort_se (filter (of_type t) spans)))).
    { intros t.
      assert (Hf : Forall P (sort_se (filter (of_type t) spans))).
      { apply Forall_forall. intros y Hy.
        apply (Permutation_in _ (Permutation_sym (sort_se_perm _))) in Hy.
        apply filter_In in Hy as [Hy _]. rewrite Forall_forall in Hs. apply Hs, Hy. }
      unfold merge_kind. destruct (sort_se _) as [|a r]; [constructor|].
      apply merge_scan_forall; assumption. }
    rewrite !Forall_app. repeat split; try apply Hk. constructor.
  - apply Forall_forall. intros x Hx. apply filter_In in Hx as [Hx _].
    rewrite Forall_forall in Hs. apply Hs, Hx.
Qed.

Lemma by_id_in (spans : list span) (sid : Z) :
  In sid (map sp_id spans) -> exists s, by_id spans sid = Some s /\ In s spans.
Proof.
  intros H. unfold by_id. destruct (find _ (rev spans)) as [s|] eqn:E.
  - exists s. split; [reflexivity|]. apply find_some in E as [E _]. apply in_rev, E.
  - exfalso. apply in_map_iff in H as [s [Hs Hin]].
    pose proof (find_none _ _ E s (proj1 (in_rev _ _) Hin)) as F.
    simpl in F. rewrite Hs, Z.eqb_refl in F. discriminate.
Qed.

Ltac solve_in := cbn [In]; solve [repeat (first [left; reflexivity | right])].

Lemma table_markup (t : etype) (h : option pystr) (u : option Z) (o c : pystr) :
  basic_tags_for_type t h u = Some (o, c) -> markup_piece o /\ markup_piece c.
Proof.
  unfold markup_piece. intros H.
  destruct t; simpl in H;
    repeat match type of H with
           | context [if ?b then _ else _] => destruct b
           | context [match ?x with _ => _ end] => destruct x
           end;
    try discriminate; injection H as <- <-.
  all: split; [|left; unfold fixed_tags; solve_in].
  all: first [left; unfold fixed_tags; solve_in
             | right; left;
               match goal with
               | |- context [a_open ?pre (html_escape ?hh)] => exists pre, hh
               end; split; [solve_in | reflexivity]
             | right; left;
               match goal with
               | |- context [a_open ?pre []] => exists pre, (@nil Z)
               end; split; [solve_in | reflexivity]
             | right; right; eexists; reflexivity].
Qed.

Lemma span_tags_markup (spans : list span) (sid : Z) :
  Forall tags_from_table spans -> in_ids spans sid ->
  markup_piece (open_of spans sid) /\ markup_piece (close_of spans sid).
Proof.
  intros Hs Hi. destruct (by_id_in spans sid Hi) as [s [Hb Hin]].
  unfold open_of, close_of. rewrite Hb.
  rewrite Forall_forall in Hs. destruct (Hs s Hin) as [t [h [u Ht]]].
  apply (table_markup t h u), Ht.
Qed.

Lemma pipeline_tags (text : pystr) (ents : option (list entity)) (spans : list span) :
  merge_mergeable_spans text (build_raw_spans text ents) = Ok spans ->
  Forall tags_from_table spans.
Proof.
  intros H. apply (merge_forall tags_from_table text (build_raw_spans text ents) spans).
  - intros s n Hs. exact Hs.
  - exact H.
  - apply build_tags.
Qed.

Lemma telegram_out_ok (text : pystr) (ents : option (list entity)) (out : pystr) :
  to_telegram_html text ents = Ok out ->
  (text = [] /\ out = [])
  \/ exists spans, merge_mergeable_spans text (build_raw_spans text ents) = Ok spans
                   /\ out = List.concat (render text spans).
Proof.
  unfold to_telegram_html, telegram_out. destruct text as [|c t].
  - intros H; injection H as <-. left; split; reflexivity.
  - destruct (merge_mergeable_spans _ _) as [spans|e]; intros H; [|discriminate].
    injection H as <-. right. exists spans. split; reflexivity.
Qed.

(** C6: every piece of the output is one escaped character of the text or
    a tag of the fixed dialect whose link target is escaped (or a numeric
    user id), and an escaped string has no raw [<], [>] or quote and no [&]
    that does not begin an entity. *)
Theorem output_escaped :
  (forall s, escaped_ok (html_escape s) = true)
  /\ (forall text ents out, to_telegram_html text ents = Ok out ->
        exists pieces, out = List.concat pieces /\ Forall (output_piece_ok text) pieces).
Proof.
  split; [exact escaped_ok_html_escape|].
  intros text ents out H.
  destruct (telegram_out_ok text ents out H) as [[_ ->]|[spans [Hm ->]]].
  - exists []. split; [reflexivity | constructor].
  - exists (render text spans). split; [reflexivity|].
    pose proof (pipeline_tags text ents spans Hm) as Ht.
    set (Inv := fun rs => Forall (output_piece_ok text) (out rs) /\ Forall (in_ids spans) (stk rs)).
    assert (Hr : Inv {| out := render text spans; stk := [] |}).
    { apply render_inv; unfold Inv; simpl.
      - intros o st [_ Hs]. exact Hs.
      - intros o st sid [Ho Hs] Hi. split; [|constructor; assumption].
        apply Forall_app; split; [exact Ho|]. constructor; [|constructor].
        right. apply (span_tags_markup spans sid Ht Hi).
      - intros o st sid [Ho Hs]. inversion Hs as [|? ? Hi Hs']; subst.
        split; [|exact Hs']. apply Forall_app; split; [exact Ho|]. constructor; [|constructor].
        right. apply (span_tags_markup spans sid Ht Hi).
      - intros o st i [Ho Hs] Hi. split; [|exact Hs].
        apply Forall_app; split; [exact Ho|]. constructor; [|constructor].
        left. exists (nth i text 0). split; [apply nth_In, Hi | reflexivity].
      - split; constructor. }
    exact (proj1 Hr).
Qed.

Lemma output_escaped_witness :
  exists pieces, lit "&lt;<b>x</b>"
                 = List.concat pieces /\ Forall (output_piece_ok (lit "<x")) pieces.
Proof.
  apply ((proj2 output_escaped) (lit "<x") (Some [ent 3 Bold 1 1])).
  vm_compute. reflexivity.
Defined.

(** ** Tags of the output *)

Lemma tagfree_app (a b : pystr) : tagfree (a ++ b) = tagfree a && tagfree b.
Proof. unfold tagfree. apply forallb_app. Qed.

Lemma tags_in_free (p r : pystr) : tagfree p = true -> tags_in (p ++ r) None = tags_in r None.
Proof.
  induction p as [|c p IH]; [reflexivity|].
  unfold tagfree; simpl. intros H. apply andb_true_iff in H as [Hc Hp].
  apply negb_true_iff, orb_false_iff in Hc as [H60 _]. rewrite H60. apply IH, Hp.
Qed.

Lemma tags_in_body (b r acc : pystr) :
  tagfree b = true -> tags_in (b ++ 62 :: r) (Some acc) = (rev acc ++ b) :: tags_in r None.
Proof.
  revert acc; induction b as [|c b IH]; intros acc H; simpl.
  - rewrite app_nil_r. reflexivity.
  - unfold tagfree in H; simpl in H. apply andb_true_iff in H as [Hc Hb].
    apply negb_true_iff, orb_false_iff in Hc as [_ H62]. rewrite H62.
    rewrite IH by exact Hb. simpl. rewrite <- app_assoc. reflexivity.
Qed.

Lemma tags_in_tag (b r : pystr) :
  tagfree b = true -> tags_in ((60 :: b ++ [62]) ++ r) None = b :: tags_in r None.
Proof.
  intros H. simpl. rewrite <- app_assoc. simpl. apply (tags_in_body b r []), H.
Qed.

Definition piece_shape (p : pystr) : Prop :=
  tagfree p = true \/ exists b, p = 60 :: b ++ [62] /\ tagfree b = true.

Lemma tags_of_concat (ps : list pystr) :
  Forall piece_shape ps -> tags_of (List.concat ps) = flat_map tags_of ps.
Proof.
  induction 1 as [|p ps Hp Hps IH]; [reflexivity|].
  simpl. unfold tags_of at 1. rewrite <- IH.
  destruct Hp as [Hp|[b [-> Hb]]].
  - rewrite tags_in_free by exact Hp. unfold tags_of.
    rewrite <- (app_nil_r p), tags_in_free by exact Hp. reflexivity.
  - rewrite tags_in_tag by exact Hb. unfold tags_of.
    rewrite <- (app_nil_r (60 :: b ++ [62])), tags_in_tag by exact Hb.
    reflexivity.
Qed.

Lemma tagfree_html_escape (s : pystr) : tagfree (html_escape s) = true.
Proof.
  induction s as [|c s IH]; [reflexivity|].
  change (html_escape (c :: s)) with (escape_char c ++ html_escape s).
  rewrite tagfree_app, IH, andb_true_r. unfold escape_char.
  destruct (Z.eqb_spec c 38); [reflexivity|].
  destruct (Z.eqb_spec c 60); [reflexivity|].
  destruct (Z.eqb_spec c 62); [reflexivity|].
  destruct (Z.eqb_spec c 34); [reflexivity|].
  destruct (Z.eqb_spec c 39); [reflexivity|].
  unfold tagfree; simpl.
  rewrite (proj2 (Z.eqb_neq c 60) ltac:(assumption)), (proj2 (Z.eqb_neq c 62) ltac:(assumption)).
  reflexivity.
Qed.

Lemma tagfree_py_str_int (z : Z) : tagfree (py_str_int z) = true.
Proof.
  assert (H : forall d, tagfree (uint_digits d) = true)
    by (induction d; simpl; try reflexivity; exact IHd).
  unfold py_str_int. destruct (Z.to_int z); [apply H | simpl; apply H].
Qed.

Lemma nest_check_app (a b : list pystr) (st : list pystr) :
  nest_check (a ++ b) st
  = match nest_check a st with Some st' => nest_check b st' | None => None end.
Proof.
  revert st; induction a as [|t a IH]; intros st; [reflexivity|].
  simpl. destruct (is_close_body t); [|apply IH].
  destruct st as [|top st]; [reflexivity|].
  destruct (list_eq_dec Z.eq_dec top (tag_name t)); [apply IH | reflexivity].
Qed.

(** The tag pair of a span: an open tag and the close tag of the same name. *)
Definition tag_pair (o c : pystr) : Prop :=
  exists bo bc, o = 60 :: bo ++ [62] /\ c = 60 :: bc ++ [62]
    /\ tagfree bo = true /\ tagfree bc = true
    /\ is_close_body bo = false /\ is_close_body bc = true /\ tag_name bc = tag_name bo.

Lemma a_open_pair (pre h : pystr) :
  tagfree pre = true -> tagfree h = true -> tag_pair (a_open pre h) (lit "</a>").
Proof.
  intros Hp Hh. exists (lit "a href=" ++ dq ++ pre ++ h ++ dq), (lit "/a").
  split; [unfold a_open; simpl; rewrite <- !app_assoc; reflexivity|].
  split; [reflexivity|]. split; [|repeat split].
  rewrite !tagfree_app, Hp, Hh. reflexivity.
Qed.

Lemma table_pair (t : etype) (h : option pystr) (u : option Z) (o c : pystr) :
  basic_tags_for_type t h u = Some (o, c) -> tag_pair o c.
Proof.
  intros H.
  destruct t; simpl in H;
    repeat match type of H with
           | context [if ?b then _ else _] => destruct b
           | context [match ?x with _ => _ end] => destruct x
           end;
    try discriminate; injection H as <- <-;
    first [ apply a_open_pair;
            first [reflexivity | apply tagfree_html_escape | apply tagfree_py_str_int]
          | match goal with
            |- tag_pair ?o ?c =>
                exists (removelast (tl o)), (removelast (tl c)); vm_compute;
                repeat split
            end ].
Qed.

Lemma span_pair (spans : list span) (sid : Z) :
  Forall tags_from_table spans -> in_ids spans sid ->
  tag_pair (open_of spans sid) (close_of spans sid).
Proof.
  intros Hs Hi. destruct (by_id_in spans sid Hi) as [s [Hb Hin]].
  unfold open_of, close_of. rewrite Hb.
  rewrite Forall_forall in Hs. destruct (Hs s Hin) as [t [h [u Ht]]].
  apply (table_pair t h u), Ht.
Qed.

Lemma tags_of_tag (b : pystr) : tagfree b = true -> tags_of (60 :: b ++ [62]) = [b].
Proof.
  intros H. unfold tags_of. rewrite <- (app_nil_r (60 :: b ++ [62])), tags_in_tag by exact H.
  reflexivity.
Qed.

Lemma tags_of_free (p : pystr) : tagfree p = true -> tags_of p = [].
Proof.
  intros H. unfold tags_of. rewrite <- (app_nil_r p), tags_in_free by exact H. reflexivity.
Qed.

Lemma flat_map_snoc {A B} (f : A -> list B) (l : list A) (x : A) :
  flat_map f (l ++ [x]) = flat_map f l ++ f x.
Proof. rewrite flat_map_app. simpl. rewrite app_nil_r. reflexivity. Qed.

(** The name on the stack for an open span: the name of its open tag. *)
Definition open_name (spans : list span) (sid : Z) : pystr :=
  match tags_of (open_of spans sid) with b :: _ => tag_name b | [] => [] end.

(** The renderer invariant: the pieces emitted so far are plain text or one
    tag each, their tags nest, and the names still open are those of the
    spans on [open_stack], innermost first. *)
Definition nest_inv (spans : list span) (rs : rstate) : Prop :=
  Forall piece_shape (out rs)
  /\ nest_check (flat_map tags_of (out rs)) [] = Some (map (open_name spans) (stk rs))
  /\ Forall (in_ids spans) (stk rs).

Lemma render_nest (text : pystr) (spans : list span) :
  Forall tags_from_table spans -> nest_inv spans {| out := render text spans; stk := [] |}.
Proof.
  intros Hs. apply render_inv; unfold nest_inv; cbn [out stk].
  - intros o st [_ [_ H]]. exact H.
  - intros o st sid [Hp [Hn Hi]] Hsid. cbn [out stk] in Hp, Hn, Hi.
    destruct (span_pair spans sid Hs Hsid) as [bo [bc [Ho [_ [Hbo [_ [Co _]]]]]]].
    unfold nest_inv; simpl. split; [|split].
    + apply Forall_app; split; [exact Hp|]. constructor; [|constructor].
      right. exists bo. split; assumption.
    + rewrite flat_map_snoc, nest_check_app, Hn, Ho, tags_of_tag by exact Hbo.
      simpl. rewrite Co. unfold open_name. rewrite Ho, tags_of_tag by exact Hbo. reflexivity.
    + constructor; assumption.
  - intros o st sid [Hp [Hn Hi]]. cbn [out stk] in Hp, Hn, Hi.
    inversion Hi as [|x y Hsid Hst]; subst.
    destruct (span_pair spans sid Hs Hsid) as [bo [bc [Ho [Hc [Hbo [Hbc [_ [Cc Nm]]]]]]]].
    unfold nest_inv; simpl. split; [|split; [|exact Hst]].
    + apply Forall_app; split; [exact Hp|]. constructor; [|constructor].
      right. exists bc. split; assumption.
    + rewrite flat_map_snoc, nest_check_app, Hn, Hc, tags_of_tag by exact Hbc.
      assert (On : open_name spans sid = tag_name bo)
        by (unfold open_name; rewrite Ho, tags_of_tag by exact Hbo; reflexivity).
      simpl. rewrite Cc, On, Nm. destruct (list_eq_dec Z.eq_dec (tag_name bo) (tag_name bo)) as [_|E];
        [reflexivity | congruence].
  - intros o st i [Hp [Hn Hi]] _. cbn [out stk] in Hp, Hn, Hi.
    cbn [out stk]. split; [|split; [|exact Hi]].
    + apply Forall_app; split; [exact Hp|]. constructor; [|constructor].
      left. exact (tagfree_html_escape [nth i text 0]).
    + rewrite flat_map_snoc, nest_check_app, Hn, (tags_of_free (html_escape [nth i text 0]))
        by apply tagfree_html_escape.
      reflexivity.
  - unfold nest_inv; simpl. split; [constructor | split; [reflexivity | constructor]].
Qed.

Lemma nest_check_prefix (ts : list pystr) (st r : list pystr) (k : nat) :
  nest_check ts st = Some r -> nest_check (firstn k ts) st <> None.
Proof.
  revert st k; induction ts as [|t ts IH]; intros st k H.
  - rewrite firstn_nil. discriminate.
  - destruct k as [|k]; [discriminate|]. simpl in *.
    destruct (is_close_body t); [|eapply IH; exact H].
    destruct st as [|top st]; [discriminate|].
    destruct (list_eq_dec Z.eq_dec top (tag_name t)); [eapply IH; exact H | discriminate].
Qed.

Lemma nest_check_count (ts : list pystr) (st r : list pystr) :
  nest_check ts st = Some r ->
  (count_open ts + List.length st = count_close ts + List.length r)%nat.
Proof.
  revert st; induction ts as [|t ts IH]; intros st H.
  - injection H as <-. reflexivity.
  - unfold count_open, count_close in *. simpl in H |- *.
    destruct (is_close_body t); simpl.
    + destruct st as [|top st]; [discriminate|].
      destruct (list_eq_dec Z.eq_dec top (tag_name t)); [|discriminate].
      apply IH in H. simpl in H |- *. lia.
    + apply IH in H. simpl in H |- *. lia.
Qed.

(** Cutting the output string anywhere, even inside a tag, keeps a prefix of
    its tags: a tag cut before its [>] is not counted. *)
Lemma tags_in_firstn (s : pystr) (cur : option pystr) (k : nat) :
  exists k', tags_in (firstn k s) cur = firstn k' (tags_in s cur).
Proof.
  revert cur k; induction s as [|c r IH]; intros cur k.
  - exists 0%nat. rewrite firstn_nil. reflexivity.
  - destruct k as [|k]; [exists 0%nat; reflexivity|]. simpl.
    destruct cur as [acc|].
    + destruct (c =? 62).
      * destruct (IH None k) as [k' E]. exists (S k'). rewrite E. reflexivity.
      * apply IH.
    + destruct (c =? 60); apply IH.
Qed.

(** * C2: the tags of every output nest *)

(** C2: whenever [to_telegram_html] returns a string, the string has as many
    open tags as close tags, every close tag closes the innermost open tag of
    the same name (the whole tag sequence passes [nest_check] with nothing left
    open), and every prefix of the string, cut at any character, passes the
    nesting check too: no close tag comes without a matching open one. *)
Theorem html_tags_balanced (text : pystr) (ents : option (list entity)) (res : pystr) :
  to_telegram_html text ents = Ok res ->
  count_open (tags_of res) = count_close (tags_of res)
  /\ nest_check (tags_of res) [] = Some []
  /\ (forall k, nest_check (tags_of (firstn k res)) [] <> None).
Proof.
  intros H.
  assert (Hn : nest_check (tags_of res) [] = Some []).
  { apply telegram_out_ok in H as [[_ ->]|[spans [Hm ->]]]; [reflexivity|].
    destruct (render_nest text spans (pipeline_tags text ents spans Hm)) as [Hp [Hn _]].
    cbn [out stk map] in Hp, Hn. rewrite tags_of_concat by exact Hp. exact Hn. }
  split; [|split; [exact Hn|]].
  - pose proof (nest_check_count _ _ _ Hn) as C. simpl in C. lia.
  - intros k. destruct (tags_in_firstn res None k) as [k' E].
    unfold tags_of at 1. rewrite E. apply (nest_check_prefix _ _ _ _ Hn).
Qed.

(** Bold over [0,5) and italic over [3,8) overlap; the italic tag is closed
    and reopened around the bold close tag. *)
Lemma html_tags_balanced_witness :
  to_telegram_html (lit "abcdefgh") (Some [ent 1 Bold 0 5; ent 2 Italic 3 5])
    = Ok (lit "<b>abc<i>de</i></b><i>fgh</i>")
  /\ count_open (tags_of (lit "<b>abc<i>de</i></b><i>fgh</i>"))
     = count_close (tags_of (lit "<b>abc<i>de</i></b><i>fgh</i>"))
  /\ nest_check (tags_of (lit "<b>abc<i>de</i></b><i>fgh</i>")) [] = Some []
  /\ (forall k, nest_check (tags_of (firstn k (lit "<b>abc<i>de</i></b><i>fgh</i>"))) [] <> None).
Proof.
  split; [vm_compute; reflexivity|].
  apply (html_tags_balanced (lit "abcdefgh") (Some [ent 1 Bold 0 5; ent 2 Italic 3 5])).
  vm_compute. reflexivity.
Defined.

(** * C1: a bold span overlapping a link *)

(** C1: on the 8-character text "abcdefgh" with a bold annotation over
    [0,5) and a link over [3,8), [to_telegram_html] raises
    [AttributeError]: the link span is not mergeable, so line 121 calls
    [setdefault] on the list [others].  The rendering walk of lines 155-214,
    run on the built spans, would have produced
    [<b>abc<a href="u">de</a></b><a href="u">fgh</a>]: the link is closed
    above the bold close tag and reopened after it. *)
Theorem bold_link_overlap_raises :
  to_telegram_html (lit "abcdefgh") (Some [ent 100 Bold 0 5; link_ent 200 3 5 (lit "u")])
    = Raise AttributeError
  /\ List.concat (render (lit "abcdefgh")
       (build_raw_spans (lit "abcdefgh") (Some [ent 100 Bold 0 5; link_ent 200 3 5 (lit "u")])))
     = lit "<b>abc" ++ a_open [] (lit "u") ++ lit "de</a></b>"
       ++ a_open [] (lit "u") ++ lit "fgh</a>".
Proof. split; vm_compute; reflexivity. Qed.

(** * Further properties of the code *)

(** ** Offset translator *)

Lemma utf16_scan_ge (s : pystr) (p u : Z) (i : nat) : (i <= utf16_scan s p u i)%nat.
Proof.
  revert u i; induction s as [|c s IH]; intros u i; simpl; [lia|].
  destruct (u <? p); [specialize (IH (u + units_of c) (S i)); lia | lia].
Qed.

Lemma utf16_scan_mono (s : pystr) (p1 p2 u : Z) (i : nat) :
  p1 <= p2 -> (utf16_scan s p1 u i <= utf16_scan s p2 u i)%nat.
Proof.
  intros Hp. revert u i; induction s as [|c s IH]; intros u i; simpl; [lia|].
  destruct (Z.ltb_spec u p1).
  - replace (u <? p2) with true by (symmetry; apply Z.ltb_lt; lia). apply IH.
  - destruct (u <? p2); [pose proof (utf16_scan_ge s p2 (u + units_of c) (S i)); lia | lia].
Qed.

Lemma utf16_scan_len (s : pystr) (p u : Z) (i : nat) :
  (utf16_scan s p u i <= i + List.length s)%nat.
Proof.
  revert u i; induction s as [|c s IH]; intros u i; simpl; [lia|].
  destruct (u <? p); [specialize (IH (u + units_of c) (S i)); lia | lia].
Qed.

Lemma utf16_scan_prefix (s : pystr) (u : Z) (i k : nat) :
  (k <= List.length s)%nat -> utf16_scan s (u + utf16_len (firstn k s)) u i = (i + k)%nat.
Proof.
  revert u i k; induction s as [|c s IH]; intros u i k Hk.
  - simpl in Hk. replace k with 0%nat by lia. simpl. lia.
  - destruct k as [|k].
    + simpl. rewrite Z.add_0_r, Z.ltb_irrefl. lia.
    + simpl firstn. rewrite utf16_len_cons. simpl.
      pose proof (units_of_pos c). pose proof (utf16_len_nonneg (firstn k s)).
      replace (u <? u + (units_of c + utf16_len (firstn k s))) with true
        by (symmetry; apply Z.ltb_lt; lia).
      replace (u + (units_of c + utf16_len (firstn k s)))
        with ((u + units_of c) + utf16_len (firstn k s)) by lia.
      simpl in Hk. rewrite IH by lia. lia.
Qed.

Lemma utf16_index_mono (s : pystr) (u1 u2 : Z) :
  u1 <= u2 -> (utf16_units_to_py_index s u1 <= utf16_units_to_py_index s u2)%nat.
Proof.
  intros H. unfold utf16_units_to_py_index.
  destruct (Z.leb_spec u1 0); [lia|].
  replace (u2 <=? 0) with false by (symmetry; apply Z.leb_gt; lia).
  apply utf16_scan_mono, H.
Qed.

(** X1: [utf16_units_to_py_index] is monotone in [unit_pos]: a later UTF-16
    position never maps to an earlier character index. *)
Theorem utf16_units_to_py_index_mono (s : pystr) (u1 u2 : Z) :
  u1 <= u2 -> (utf16_units_to_py_index s u1 <= utf16_units_to_py_index s u2)%nat.
Proof. apply utf16_index_mono. Qed.

Lemma utf16_units_to_py_index_mono_witness :
  (1 <= 3) /\ (utf16_units_to_py_index emoji_abc 1 <= utf16_units_to_py_index emoji_abc 3)%nat.
Proof. split; [lia | apply utf16_units_to_py_index_mono; lia]. Defined.

(** X2: the index [utf16_units_to_py_index] returns is never past the end
    of the text, whatever the position (negative, or beyond the text's
    UTF-16 length). *)
Theorem utf16_units_to_py_index_le_len (s : pystr) (u : Z) :
  (utf16_units_to_py_index s u <= List.length s)%nat.
Proof.
  unfold utf16_units_to_py_index. destruct (u <=? 0); [lia|].
  pose proof (utf16_scan_len s u 0 0). lia.
Qed.

(** X3: round trip.  The UTF-16 length of the first [k] characters
    translates back to [k]: character boundaries, counted in UTF-16 units,
    are found exactly. *)
Theorem utf16_units_to_py_index_roundtrip (s : pystr) (k : nat) :
  (k <= List.length s)%nat -> utf16_units_to_py_index s (utf16_len (firstn k s)) = k.
Proof.
  intros Hk. unfold utf16_units_to_py_index.
  destruct k as [|k]; [reflexivity|].
  destruct s as [|c s]; [simpl in Hk; lia|].
  simpl firstn. rewrite utf16_len_cons.
  pose proof (units_of_pos c). pose proof (utf16_len_nonneg (firstn k s)).
  replace (units_of c + utf16_len (firstn k s) <=? 0) with false
    by (symmetry; apply Z.leb_gt; lia).
  pose proof (utf16_scan_prefix (c :: s) 0 0 (S k) Hk) as E.
  simpl firstn in E. rewrite utf16_len_cons, Z.add_0_l in E. exact E.
Qed.

Lemma utf16_units_to_py_index_roundtrip_witness :
  (2 <= List.length emoji_abc)%nat
  /\ utf16_units_to_py_index emoji_abc (utf16_len (firstn 2 emoji_abc)) = 2%nat.
Proof. split; [vm_compute; lia | apply utf16_units_to_py_index_roundtrip; vm_compute; lia]. Defined.

(** ** Span builder *)

Lemma build_one_bounds (text : pystr) (e : entity) (s : span) :
  build_one text e = Some s -> (sp_start s < sp_end s <= List.length text)%nat.
Proof.
  unfold build_one. cbv zeta.
  destruct ((utf16_units_to_py_index text (e_offset e + e_length e)
             <=? utf16_units_to_py_index text (e_offset e))%nat
            || (List.length text <? utf16_units_to_py_index text (e_offset e + e_length e))%nat)
    eqn:E; [discriminate|].
  apply orb_false_iff in E as [E1 E2]. apply Nat.leb_gt in E1. apply Nat.ltb_ge in E2.
  intros H.
  repeat match type of H with
         | context [match ?x with _ => _ end] => destruct x
         end; try discriminate.
  all: injection H as <-; simpl; lia.
Qed.

(** X4: every span [build_raw_spans] produces is non-empty and lies inside
    the text: [0 <= start < end <= len(text)]. *)
Theorem build_raw_spans_bounds (text : pystr) (ents : option (list entity)) :
  Forall (fun s => (sp_start s < sp_end s <= List.length text)%nat) (build_raw_spans text ents).
Proof.
  destruct ents as [es|]; [|constructor]. rewrite build_raw_spans_some.
  induction es as [|e es IH]; simpl; [constructor|].
  destruct (build_one text e) eqn:He; [|exact IH].
  constructor; [apply (build_one_bounds text e), He | exact IH].
Qed.

(** X5: an entity whose length is zero or negative yields no span, whatever
    its kind: it can be removed from the entity list. *)
Theorem build_raw_spans_nonpositive_length (text : pystr) (es1 es2 : list entity) (e : entity) :
  e_length e <= 0 ->
  build_raw_spans text (Some (es1 ++ e :: es2)) = build_raw_spans text (Some (es1 ++ es2)).
Proof.
  intros Hl. apply build_raw_spans_skip. unfold build_one. cbv zeta.
  pose proof (utf16_index_mono text (e_offset e + e_length e) (e_offset e)
                ltac:(lia)) as Hm.
  apply Nat.leb_le in Hm. rewrite Hm. reflexivity.
Qed.

Lemma build_raw_spans_nonpositive_length_witness :
  0 <= 0 /\
  build_raw_spans (lit "abc") (Some ([ent 1 Bold 0 2] ++ ent 2 Code 1 0 :: []))
  = build_raw_spans (lit "abc") (Some ([ent 1 Bold 0 2] ++ [])).
Proof. split; [lia | apply build_raw_spans_nonpositive_length; simpl; lia]. Defined.

(** X6: the builder handles each entity on its own: the spans of a
    concatenated entity list are the spans of each part, in order. *)
Theorem build_raw_spans_app (text : pystr) (es1 es2 : list entity) :
  build_raw_spans text (Some (es1 ++ es2))
  = build_raw_spans text (Some es1) ++ build_raw_spans text (Some es2).
Proof. rewrite !build_raw_spans_some. apply build_loop_app. Qed.

Lemma join_split_blank (s : pystr) : forallb py_isspace s = true -> join_split s = [].
Proof.
  induction s as [|c s IH]; [reflexivity|].
  simpl. intros H. apply andb_true_iff in H as [Hc Hs]. unfold join_split. simpl.
  rewrite Hc. apply IH, Hs.
Qed.

Lemma join_split_no_space (s : pystr) :
  forallb (fun c => negb (py_isspace c)) (join_split s) = true.
Proof.
  unfold join_split. induction s as [|c s IH]; [reflexivity|]. simpl.
  destruct (py_isspace c) eqn:E; simpl; [exact IH|]. rewrite E. exact IH.
Qed.

(** X7: a [url] or [email] entity links to its covered text with every
    whitespace character removed ([mailto:] in front for [email]); that
    target is never empty and holds no whitespace.  When the covered text
    is all whitespace no span is produced. *)
Theorem url_email_target (text : pystr) (e : entity) (pre : pystr) :
  (e_type e = Url /\ pre = [] \/ e_type e = Email /\ pre = lit "mailto:") ->
  (forall s, build_one text e = Some s ->
     sp_open s = a_open pre (html_escape (join_split (covered text e)))
     /\ sp_close s = lit "</a>"
     /\ join_split (covered text e) <> []
     /\ forallb (fun c => negb (py_isspace c)) (join_split (covered text e)) = true)
  /\ (forallb py_isspace (covered text e) = true -> build_one text e = None).
Proof.
  intros Ht. split.
  - intros s H. split; [|split; [|split; [|apply join_split_no_space]]];
    unfold build_one, covered in *; cbv zeta in H;
      destruct Ht as [[Ht ->]|[Ht ->]]; rewrite Ht in H; simpl in H;
      destruct (_ || _); try discriminate;
      destruct (join_split _); try discriminate; injection H as <-; try reflexivity;
      discriminate.
  - intros Hb. unfold build_one. unfold covered in Hb. cbv zeta.
    rewrite (join_split_blank _ Hb).
    destruct Ht as [[Ht _]|[Ht _]]; rewrite Ht; simpl; destruct (_ || _); reflexivity.
Qed.

Lemma url_email_target_witness :
  exists s, build_one (lit "a.b/ c") (ent 9 Url 0 6) = Some s
            /\ sp_open s = a_open [] (html_escape (lit "a.b/c")).
Proof.
  destruct (build_one (lit "a.b/ c") (ent 9 Url 0 6)) as [s|] eqn:E;
    [|vm_compute in E; discriminate].
  exists s. split; [reflexivity|].
  destruct (url_email_target (lit "a.b/ c") (ent 9 Url 0 6) []
              (or_introl (conj eq_refl eq_refl))) as [H1 _].
  rewrite (proj1 (H1 s E)). vm_compute. reflexivity.
Defined.

(** X8: a [mention] entity links to [https://t.me/] followed by its covered
    text, stripped of surrounding whitespace and of one leading [@]; when
    nothing is left (the text is only whitespace and an [@]) no span is
    produced. *)
Theorem mention_target (text : pystr) (e : entity) :
  e_type e = Mention ->
  (forall s, build_one text e = Some s ->
     sp_open s = a_open (lit "https://t.me/") (html_escape (strip_at (py_strip (covered text e))))
     /\ strip_at (py_strip (covered text e)) <> [])
  /\ (strip_at (py_strip (covered text e)) = [] -> build_one text e = None).
Proof.
  intros Ht. split.
  - intros s H. unfold build_one, covered in *. cbv zeta in H. rewrite Ht in H. simpl in H.
    destruct (_ || _); [discriminate|].
    destruct (strip_at _); [discriminate|]. injection H as <-.
    split; [reflexivity | discriminate].
  - intros Hb. unfold build_one. unfold covered in Hb. cbv zeta. rewrite Ht. simpl.
    destruct (_ || _); [reflexivity|]. rewrite Hb. reflexivity.
Qed.

Lemma mention_target_witness :
  build_one (lit "to @ ") (ent 5 Mention 3 2) = None
  /\ exists s, build_one (lit "hi @bob") (ent 6 Mention 3 4) = Some s
               /\ sp_open s = a_open (lit "https://t.me/") (lit "bob").
Proof.
  split.
  - apply (proj2 (mention_target (lit "to @ ") (ent 5 Mention 3 2) eq_refl)).
    vm_compute. reflexivity.
  - destruct (build_one (lit "hi @bob") (ent 6 Mention 3 4)) as [s|] eqn:E;
      [|vm_compute in E; discriminate].
    exists s. split; [reflexivity|].
    rewrite (proj1 (proj1 (mention_target (lit "hi @bob") (ent 6 Mention 3 4) eq_refl) s E)).
    vm_compute. reflexivity.
Defined.

(** ** Span merger *)

Lemma existsb_filter_nil {A} (f : A -> bool) (l : list A) :
  existsb f l = false -> filter f l = [].
Proof.
  induction l as [|x l IH]; simpl; [reflexivity|].
  intros H. apply orb_false_iff in H as [H1 H2]. rewrite H1. apply IH, H2.
Qed.

(** The spans of one kind in the merger's result. *)
Lemma merge_res_kind (text : pystr) (spans res : list span) (t : etype) :
  merge_mergeable_spans text spans = Ok res ->
  filter (of_type t) res
  = if is_mergeable t then merge_kind text (sort_se (filter (of_type t) spans)) else [].
Proof.
  unfold merge_mergeable_spans. destruct (existsb _ spans) eqn:Ex; [discriminate|].
  intros H. injection H as <-.
  rewrite filter_app, (existsb_filter_nil _ _ Ex). cbn [flat_map MERGEABLE].
  rewrite !filter_app, !filter_kind.
  destruct t; simpl; rewrite ?app_nil_r; reflexivity.
Qed.

Lemma merge_scan_head (text : pystr) (cur : span) (rest : list span) :
  exists m tl, merge_scan text cur rest = m :: tl /\ sp_start m = sp_start cur.
Proof.
  revert cur; induction rest as [|nxt r IH]; intros cur; simpl.
  - eauto.
  - destruct (_ && _); [eauto|].
    destruct (IH (set_end cur (Nat.max (sp_end cur) (sp_end nxt)))) as [m [tl [E S]]].
    exists m, tl. split; [exact E | exact S].
Qed.

Lemma merge_scan_separated (text : pystr) (cur : span) (rest : list span) :
  Sorted (separated text) (merge_scan text cur rest).
Proof.
  revert cur; induction rest as [|nxt r IH]; intros cur; simpl.
  - repeat constructor.
  - rewrite merge_gap_test. destruct (_ && _) eqn:G; [|apply IH].
    constructor; [apply IH|].
    destruct (merge_scan_head text nxt r) as [m [tl [E S]]]. rewrite E.
    constructor. apply andb_true_iff in G as [G1 G2]. apply Nat.ltb_lt in G1.
    unfold separated. rewrite S. split; [|exact G2].
    unfold py_slice in G1. rewrite length_firstn in G1. lia.
Qed.

(** X9: in the merger's result, the spans of one kind are in text order and
    do not touch: each ends before the next begins, and the text between
    two consecutive ones contains a non-whitespace character. *)
Theorem merge_kind_separated (text : pystr) (spans res : list span) (t : etype) :
  merge_mergeable_spans text spans = Ok res ->
  Sorted (separated text) (filter (of_type t) res).
Proof.
  intros H. rewrite (merge_res_kind text spans res t H).
  destruct (is_mergeable t); [|constructor].
  unfold merge_kind. destruct (sort_se _) as [|a r]; [constructor|].
  apply merge_scan_separated.
Qed.

Lemma merge_kind_separated_witness :
  merge_mergeable_spans (lit "AB x CD")
    (build_raw_spans (lit "AB x CD") (Some [ent 1 Bold 0 2; ent 2 Bold 5 2]))
  = Ok (build_raw_spans (lit "AB x CD") (Some [ent 1 Bold 0 2; ent 2 Bold 5 2]))
  /\ Sorted (separated (lit "AB x CD"))
       (filter (of_type Bold) (build_raw_spans (lit "AB x CD") (Some [ent 1 Bold 0 2; ent 2 Bold 5 2]))).
Proof.
  split; [vm_compute; reflexivity|].
  apply (merge_kind_separated (lit "AB x CD")
           (build_raw_spans (lit "AB x CD") (Some [ent 1 Bold 0 2; ent 2 Bold 5 2]))).
  vm_compute. reflexivity.
Defined.

Lemma merge_scan_covers (text : pystr) (cur : span) (rest : list span) :
  StronglySorted start_le (cur :: rest) ->
  forall x, In x (cur :: rest) ->
  exists m, In m (merge_scan text cur rest)
            /\ (sp_start m <= sp_start x)%nat /\ (sp_end x <= sp_end m)%nat.
Proof.
  revert cur; induction rest as [|nxt r IH]; intros cur Hs x Hx; simpl.
  - destruct Hx as [<-|[]]. exists cur. split; [left; reflexivity | lia].
  - apply StronglySorted_inv in Hs as [Hs Hc].
    apply StronglySorted_inv in Hs as [Hr Hn].
    apply Forall_cons_iff in Hc as [Hcn Hcr].
    destruct (_ && _).
    + destruct Hx as [<-|Hx].
      * exists cur. split; [left; reflexivity | lia].
      * destruct (IH nxt (SSorted_cons _ Hr Hn) x Hx) as [m [Hm H]].
        exists m. split; [right; exact Hm | exact H].
    + set (cur' := set_end cur (Nat.max (sp_end cur) (sp_end nxt))).
      assert (Hs' : StronglySorted start_le (cur' :: r)).
      { constructor; [exact Hr|]. apply Forall_forall. intros y Hy.
        rewrite Forall_forall in Hn, Hcr. unfold start_le in *. simpl.
        specialize (Hn y Hy). unfold start_le in Hcn. lia. }
      destruct Hx as [<-|[<-|Hx]].
      * destruct (IH cur' Hs' cur' (or_introl eq_refl)) as [m [Hm H]].
        exists m. split; [exact Hm|]. simpl in H. lia.
      * destruct (IH cur' Hs' cur' (or_introl eq_refl)) as [m [Hm H]].
        exists m. split; [exact Hm|]. unfold start_le in Hcn. simpl in H. lia.
      * destruct (IH cur' Hs' x (or_intror Hx)) as [m [Hm H]].
        exists m. split; [exact Hm | exact H].
Qed.

Lemma sorted_weaken {A} (R R' : A -> A -> Prop) (l : list A) :
  (forall a b, R a b -> R' a b) -> Sorted R l -> Sorted R' l.
Proof.
  intros HR. induction 1 as [|a l Hl IH Hh]; constructor; [exact IH|].
  destruct Hh; constructor. apply HR. assumption.
Qed.

Lemma sort_se_start_sorted (l : list span) : StronglySorted start_le (sort_se l).
Proof.
  apply Sorted_StronglySorted; [unfold Relations_1.Transitive, start_le; intros; lia|].
  apply (sorted_weaken (fun a b => se_leb a b = true)); [|apply sort_se_sorted].
  intros a b H. unfold se_leb in H. unfold start_le.
  apply orb_true_iff in H as [H|H];
    [apply Nat.ltb_lt in H; lia | apply andb_true_iff in H as [H _]; apply Nat.eqb_eq in H; lia].
Qed.

Lemma mergeable_in (t : etype) : is_mergeable t = true -> In t MERGEABLE.
Proof. destruct t; simpl; try discriminate; intros _; tauto. Qed.

(** X10: merging loses no text: every input span lies inside some span of
    the result of the same kind (merged spans only grow). *)
Theorem merge_covers (text : pystr) (spans res : list span) :
  merge_mergeable_spans text spans = Ok res ->
  forall s, In s spans ->
  exists m, In m res /\ sp_type m = sp_type s
            /\ (sp_start m <= sp_start s)%nat /\ (sp_end s <= sp_end m)%nat.
Proof.
  intros H s Hs. set (t := sp_type s).
  assert (Hmg : is_mergeable t = true).
  { unfold merge_mergeable_spans in H. destruct (existsb _ spans) eqn:Ex; [discriminate|].
    destruct (is_mergeable t) eqn:E; [reflexivity|].
    assert (Hin : existsb (fun s => negb (is_mergeable (sp_type s))) spans = true)
      by (apply existsb_exists; exists s; split; [exact Hs | unfold t in E; rewrite E; reflexivity]).
    congruence. }
  assert (Hsort : In s (sort_se (filter (of_type t) spans))).
  { apply (Permutation_in _ (sort_se_perm _)). apply filter_In. split; [exact Hs|].
    apply etype_eqb_spec. reflexivity. }
  pose proof (merge_res_kind text spans res t H) as Hk. rewrite Hmg in Hk.
  pose proof (merge_kind_type text t spans) as Hty.
  pose proof (sort_se_start_sorted (filter (of_type t) spans)) as Hss.
  unfold merge_kind in Hk, Hty.
  destruct (sort_se (filter (of_type t) spans)) as [|a r]; [destruct Hsort|].
  destruct (merge_scan_covers text a r Hss s Hsort) as [m [Hm Hb]].
  exists m. split; [|split; [|exact Hb]].
  - assert (Hf : In m (filter (of_type t) res)) by (rewrite Hk; exact Hm).
    apply filter_In in Hf as [Hf _]. exact Hf.
  - rewrite Forall_forall in Hty. apply Hty, Hm.
Qed.

Lemma merge_covers_witness :
  exists res, merge_mergeable_spans (lit "AB  CD")
                (build_raw_spans (lit "AB  CD") (Some [ent 1 Bold 0 2; ent 2 Bold 4 2])) = Ok res
  /\ exists m, In m res /\ sp_type m = Bold /\ (sp_start m <= 4)%nat /\ (6 <= sp_end m)%nat.
Proof.
  destruct (merge_mergeable_spans (lit "AB  CD")
              (build_raw_spans (lit "AB  CD") (Some [ent 1 Bold 0 2; ent 2 Bold 4 2])))
    as [res|e] eqn:E; [|vm_compute in E; discriminate].
  exists res. split; [reflexivity|].
  destruct (merge_covers (lit "AB  CD")
              (build_raw_spans (lit "AB  CD") (Some [ent 1 Bold 0 2; ent 2 Bold 4 2])) res E
              (mk_span 2 Bold 4 6 (lit "<b>") (lit "</b>") 10)) as [m [Hm [Ht Hb]]].
  { vm_compute. right. left. reflexivity. }
  exists m. split; [exact Hm|]. split; [exact Ht | exact Hb].
Defined.

Lemma set_end_same (s : span) : set_end s (sp_end s) = s.
Proof. destruct s; reflexivity. Qed.

Lemma set_end_twice (s : span) (a b : nat) : set_end (set_end s a) b = set_end s b.
Proof. reflexivity. Qed.

(** X11: merging invents no span: every span of the result is a span of
    the input with, at most, its end moved; its id, kind, start, tags and
    priority are those of that input span. *)
Theorem merge_spans_from_input (text : pystr) (spans res : list span) :
  merge_mergeable_spans text spans = Ok res ->
  Forall (fun r => exists s, In s spans /\ r = set_end s (sp_end r)) res.
Proof.
  intros H. apply (merge_forall _ text spans res); [|exact H|].
  - intros r n [s [Hs E]]. exists s. split; [exact Hs|]. rewrite E at 1. reflexivity.
  - apply Forall_forall. intros s Hs. exists s. split; [exact Hs|]. symmetry. apply set_end_same.
Qed.

Lemma merge_spans_from_input_witness :
  merge_mergeable_spans (lit "AB  CD")
    (build_raw_spans (lit "AB  CD") (Some [ent 1 Bold 0 2; ent 2 Bold 4 2]))
  = Ok [mk_span 1 Bold 0 6 (lit "<b>") (lit "</b>") 10]
  /\ Forall (fun r => exists s, In s (build_raw_spans (lit "AB  CD") (Some [ent 1 Bold 0 2; ent 2 Bold 4 2]))
                                /\ r = set_end s (sp_end r))
            [mk_span 1 Bold 0 6 (lit "<b>") (lit "</b>") 10].
Proof.
  split; [vm_compute; reflexivity|].
  apply (merge_spans_from_input (lit "AB  CD")). vm_compute. reflexivity.
Defined.

(** Properties kept when the end becomes the larger of two ends. *)
Lemma merge_scan_forall_max (P : span -> Prop) (text : pystr) (cur : span) (rest : list span) :
  (forall s t, P s -> P t -> P (set_end s (Nat.max (sp_end s) (sp_end t)))) ->
  Forall P (cur :: rest) -> Forall P (merge_scan text cur rest).
Proof.
  intros HP. revert cur; induction rest as [|nxt r IH]; intros cur Hf; simpl; [exact Hf|].
  apply Forall_cons_iff in Hf as [Hc Hr]. apply Forall_cons_iff in Hr as [Hn Hr'].
  destruct (_ && _).
  - constructor; [exact Hc | apply IH; constructor; assumption].
  - apply IH. constructor; [apply HP; assumption | exact Hr'].
Qed.

Lemma merge_forall_max (P : span -> Prop) (text : pystr) (spans res : list span) :
  (forall s t, P s -> P t -> P (set_end s (Nat.max (sp_end s) (sp_end t)))) ->
  merge_mergeable_spans text spans = Ok res -> Forall P spans -> Forall P res.
Proof.
  intros HP H Hs. apply Forall_forall. intros r Hr.
  assert (Ht : In r (filter (of_type (sp_type r)) res))
    by (apply filter_In; split; [exact Hr | apply etype_eqb_spec; reflexivity]).
  rewrite (merge_res_kind text spans res _ H) in Ht.
  destruct (is_mergeable (sp_type r)); [|destruct Ht].
  assert (Hf : Forall P (sort_se (filter (of_type (sp_type r)) spans))).
  { apply Forall_forall. intros y Hy.
    apply (Permutation_in _ (Permutation_sym (sort_se_perm _))) in Hy.
    apply filter_In in Hy as [Hy _]. rewrite Forall_forall in Hs. apply Hs, Hy. }
  unfold merge_kind in Ht. destruct (sort_se _) as [|a l]; [destruct Ht|].
  pose proof (merge_scan_forall_max P text a l HP Hf) as Hm.
  rewrite Forall_forall in Hm. apply Hm, Ht.
Qed.

(** X12: merging keeps spans inside the text: if every input span satisfies
    [start < end <= len(text)], so does every span of the result. *)
Theorem merge_keeps_bounds (text : pystr) (spans res : list span) :
  merge_mergeable_spans text spans = Ok res ->
  Forall (fun s => (sp_start s < sp_end s <= List.length text)%nat) spans ->
  Forall (fun s => (sp_start s < sp_end s <= List.length text)%nat) res.
Proof.
  intros H Hs. apply (merge_forall_max _ text spans res); [|exact H | exact Hs].
  intros s t Hs' Ht'. simpl. lia.
Qed.

Lemma merge_keeps_bounds_witness :
  merge_mergeable_spans (lit "AB  CD")
    (build_raw_spans (lit "AB  CD") (Some [ent 1 Bold 0 2; ent 2 Bold 4 2]))
  = Ok [mk_span 1 Bold 0 6 (lit "<b>") (lit "</b>") 10]
  /\ Forall (fun s => (sp_start s < sp_end s <= List.length (lit "AB  CD"))%nat)
            [mk_span 1 Bold 0 6 (lit "<b>") (lit "</b>") 10].
Proof.
  split; [vm_compute; reflexivity|].
  apply (merge_keeps_bounds (lit "AB  CD")
           (build_raw_spans (lit "AB  CD") (Some [ent 1 Bold 0 2; ent 2 Bold 4 2]))).
  - vm_compute. reflexivity.
  - repeat constructor; vm_compute; lia.
Defined.

(** ** When [to_telegram_html] raises *)

Lemma build_in (text : pystr) (ents : option (list entity)) (s : span) :
  In s (build_raw_spans text ents) -> exists e, build_one text e = Some s.
Proof.
  destruct ents as [es|]; [|intros []]. rewrite build_raw_spans_some.
  induction es as [|e es IH]; simpl; [intros []|].
  destruct (build_one text e) eqn:He; [|exact IH].
  intros [<-|H]; [exists e; exact He | apply IH, H].
Qed.

(** X13: [to_telegram_html] raises [AttributeError] exactly when the
    builder produces a span of a kind other than bold, italic, underline
    and strikethrough (a link, mention, code, pre, spoiler or blockquote
    that survives building); otherwise it returns a string. *)
Theorem to_telegram_html_raises_iff (text : pystr) (ents : option (list entity)) :
  to_telegram_html text ents = Raise AttributeError
  <-> exists s, In s (build_raw_spans text ents) /\ is_mergeable (sp_type s) = false.
Proof.
  unfold to_telegram_html, telegram_out. destruct text as [|c t].
  - split; [discriminate|]. intros [s [Hs _]].
    destruct (build_in _ _ _ Hs) as [e He]. apply build_one_bounds in He. simpl in He. lia.
  - unfold merge_mergeable_spans.
    destruct (existsb _ _) eqn:Ex.
    + split; [intros _|reflexivity].
      apply existsb_exists in Ex as [s [Hs Hm]]. exists s. split; [exact Hs|].
      destruct (is_mergeable (sp_type s)); [discriminate | reflexivity].
    + split; [discriminate|]. intros [s [Hs Hm]].
      assert (existsb (fun s => negb (is_mergeable (sp_type s))) (build_raw_spans (c :: t) ents) = true)
        by (apply existsb_exists; exists s; rewrite Hm; split; [exact Hs | reflexivity]).
      congruence.
Qed.

Lemma to_telegram_html_raises_iff_witness :
  to_telegram_html (lit "x := 1") (Some [ent 3 Code 0 6]) = Raise AttributeError
  /\ to_telegram_html (lit "x y") (Some [ent 4 Bold 0 1; ent 5 Italic 2 1]) <> Raise AttributeError.
Proof.
  split.
  - apply to_telegram_html_raises_iff.
    exists (mk_span 3 Code 0 6 (lit "<code>") (lit "</code>") 20).
    split; [vm_compute; left; reflexivity | reflexivity].
  - rewrite to_telegram_html_raises_iff. intros [s [Hs Hm]].
    vm_compute in Hs. destruct Hs as [<-|[<-|[]]]; discriminate.
Defined.

(** ** The text content of the output *)

Lemma text_in_free (p r : pystr) :
  tagfree p = true -> text_in (p ++ r) false = p ++ text_in r false.
Proof.
  induction p as [|c p IH]; [reflexivity|].
  unfold tagfree; simpl. intros H. apply andb_true_iff in H as [Hc Hp].
  apply negb_true_iff, orb_false_iff in Hc as [H60 _]. rewrite H60. f_equal. apply IH, Hp.
Qed.

Lemma text_in_body (b r : pystr) :
  tagfree b = true -> text_in (b ++ 62 :: r) true = text_in r false.
Proof.
  induction b as [|c b IH]; [reflexivity|].
  unfold tagfree; simpl. intros H. apply andb_true_iff in H as [Hc Hb].
  apply negb_true_iff, orb_false_iff in Hc as [_ H62]. rewrite H62. apply IH, Hb.
Qed.

Lemma text_in_tag (b r : pystr) :
  tagfree b = true -> text_in ((60 :: b ++ [62]) ++ r) false = text_in r false.
Proof. intros H. simpl. rewrite <- app_assoc. apply text_in_body, H. Qed.

Lemma piece_text_app (a b : list pystr) : piece_text (a ++ b) = piece_text a ++ piece_text b.
Proof. unfold piece_text. rewrite map_app, concat_app. reflexivity. Qed.

Lemma strip_tags_free (p : pystr) : tagfree p = true -> strip_tags p = p.
Proof.
  intros H. unfold strip_tags. rewrite <- (app_nil_r p) at 1. rewrite text_in_free by exact H.
  apply app_nil_r.
Qed.

Lemma strip_tags_tag (b : pystr) : tagfree b = true -> strip_tags (60 :: b ++ [62]) = [].
Proof.
  intros H. unfold strip_tags. rewrite <- (app_nil_r (60 :: b ++ [62])).
  rewrite text_in_tag by exact H. reflexivity.
Qed.

Lemma strip_tags_concat (ps : list pystr) :
  Forall piece_shape ps -> strip_tags (List.concat ps) = piece_text ps.
Proof.
  induction 1 as [|p ps Hp Hps IH]; [reflexivity|].
  unfold piece_text; simpl. fold (piece_text ps). rewrite <- IH.
  destruct Hp as [Hp|[b [-> Hb]]].
  - rewrite (strip_tags_free p Hp). unfold strip_tags. apply text_in_free, Hp.
  - rewrite (strip_tags_tag b Hb). unfold strip_tags. apply text_in_tag, Hb.
Qed.

Lemma tag_pair_strip (o c : pystr) : tag_pair o c -> strip_tags o = [] /\ strip_tags c = [].
Proof.
  intros [bo [bc [-> [-> [Hbo [Hbc _]]]]]].
  split; apply strip_tags_tag; assumption.
Qed.

Section RenderText.

Variable text : pystr.
Variable spans : list span.
Hypothesis Htab : Forall tags_from_table spans.

Lemma open_close_text (sid : Z) :
  strip_tags (open_of spans sid) = [] /\ strip_tags (close_of spans sid) = [].
Proof.
  unfold open_of, close_of. destruct (by_id spans sid) as [s|] eqn:E; [|split; reflexivity].
  unfold by_id in E. apply find_some in E as [E _]. apply in_rev in E.
  rewrite Forall_forall in Htab. destruct (Htab s E) as [t [h [u Ht]]].
  apply tag_pair_strip, (table_pair t h u), Ht.
Qed.

Lemma piece_text_closes (l : list Z) : piece_text (map (close_of spans) l) = [].
Proof.
  induction l as [|x l IH]; [reflexivity|]. unfold piece_text in *. simpl.
  rewrite (proj2 (open_close_text x)), IH. reflexivity.
Qed.

Lemma piece_text_opens (l : list Z) : piece_text (map (open_of spans) l) = [].
Proof.
  induction l as [|x l IH]; [reflexivity|]. unfold piece_text in *. simpl.
  rewrite (proj1 (open_close_text x)), IH. reflexivity.
Qed.

Lemma pop_above_text (sid : Z) (st : list Z) (o : list pystr) (re : list Z) :
  let '(st', o', re') := pop_above spans sid st o re in piece_text o' = piece_text o.
Proof.
  revert o re; induction st as [|top rest IH]; intros o re; simpl; [reflexivity|].
  destruct (top =? sid); [reflexivity|].
  specialize (IH (o ++ [close_of spans top]) (re ++ [top])).
  destruct (pop_above spans sid rest _ _) as [[a b] c]. rewrite IH, piece_text_app.
  change [close_of spans top] with (map (close_of spans) [top]).
  rewrite (piece_text_closes [top]). apply app_nil_r.
Qed.

Lemma push_fold_text (l : list Z) (st : list Z) (o : list pystr) :
  let '(st', o') := fold_left (fun '(st, o) x => (x :: st, o ++ [open_of spans x])) l (st, o) in
  piece_text o' = piece_text o.
Proof.
  revert st o; induction l as [|x l IH]; intros st o; simpl; [reflexivity|].
  specialize (IH (x :: st) (o ++ [open_of spans x])).
  destruct (fold_left _ _ _) as [a b]. rewrite IH, piece_text_app.
  change [open_of spans x] with (map (open_of spans) [x]).
  rewrite (piece_text_opens [x]). apply app_nil_r.
Qed.

Lemma close_until_text (sid : Z) (rs : rstate) :
  piece_text (out (close_until spans sid rs)) = piece_text (out rs).
Proof.
  destruct rs as [o st]. unfold close_until. simpl.
  pose proof (pop_above_text sid st o []) as Hp.
  destruct (pop_above spans sid st o []) as [[st1 o1] re].
  assert (Hfin : forall st2 o2, piece_text o2 = piece_text o ->
     piece_text (out (let '(st3, o3) := fold_left (fun '(st, o) x => (x :: st, o ++ [open_of spans x]))
                                       (rev re) (st2, o2) in {| out := o3; stk := st3 |}))
     = piece_text o).
  { intros st2 o2 H2. pose proof (push_fold_text (rev re) st2 o2) as H3.
    destruct (fold_left _ _ _) as [st3 o3]. simpl. rewrite H3. exact H2. }
  destruct st1 as [|top rest]; [apply Hfin, Hp|].
  destruct (top =? sid); apply Hfin; [|exact Hp].
  change [close_of spans sid] with (map (close_of spans) [sid]).
  rewrite piece_text_app, Hp, (piece_text_closes [sid]). apply app_nil_r.
Qed.

Lemma close_loop_text (fuel : nat) (to_close : list Z) (rs : rstate) :
  piece_text (out (close_loop spans fuel to_close rs)) = piece_text (out rs).
Proof.
  revert to_close rs; induction fuel as [|f IH]; intros to_close rs; simpl; [reflexivity|].
  destruct to_close as [|x r]; [reflexivity|].
  destruct (py_max_fst _) as [[k deepest]|]; [|reflexivity].
  rewrite IH. apply close_until_text.
Qed.

Lemma open_phase_text (i : nat) (rs : rstate) :
  piece_text (out (open_phase spans i rs)) = piece_text (out rs).
Proof.
  unfold open_phase. revert rs. generalize (starts_at spans i) as l.
  induction l as [|sid l IH]; intros rs; simpl; [reflexivity|].
  rewrite IH. simpl. change [open_of spans sid] with (map (open_of spans) [sid]).
  rewrite piece_text_app, (piece_text_opens [sid]). apply app_nil_r.
Qed.

Lemma skipn_nth (l : pystr) (k : nat) :
  (k < List.length l)%nat -> skipn k l = nth k l 0 :: skipn (S k) l.
Proof.
  revert k; induction l as [|c l IH]; intros k Hk; simpl in Hk; [lia|].
  destruct k as [|k]; [reflexivity|]. simpl. apply IH. lia.
Qed.

Lemma render_fold_text (m k : nat) (rs : rstate) :
  piece_text (out (fold_left (render_pos text spans) (seq k m) rs))
  = piece_text (out rs) ++ html_escape (firstn m (skipn k text)).
Proof.
  revert k rs; induction m as [|m IH]; intros k rs; cbn [seq fold_left].
  - rewrite firstn_O, app_nil_r. reflexivity.
  - rewrite IH. unfold render_pos, char_phase.
    destruct (Nat.ltb_spec k (List.length text)) as [Hk|Hk].
    + cbn [out stk]. rewrite piece_text_app, open_phase_text. unfold close_phase.
      rewrite close_loop_text, <- app_assoc. f_equal.
      rewrite (skipn_nth text k Hk), firstn_cons.
      assert (E : forall c r, html_escape (c :: r) = html_escape [c] ++ html_escape r)
        by (intros; simpl; rewrite app_nil_r; reflexivity).
      rewrite (E _ (firstn m (skipn (S k) text))). f_equal.
      unfold piece_text. cbn [map List.concat]. rewrite app_nil_r.
      apply strip_tags_free, tagfree_html_escape.
    + rewrite open_phase_text. unfold close_phase. rewrite close_loop_text.
      rewrite !skipn_all2 by lia. rewrite firstn_nil. reflexivity.
Qed.

Lemma render_text :
  piece_text (render text spans) = html_escape text.
Proof.
  unfold render.
  pose proof (render_fold_text (S (List.length text)) 0 {| out := []; stk := [] |}) as H.
  destruct (fold_left _ _ _) as [o st]. cbn [out stk skipn] in H |- *.
  rewrite piece_text_app, H, piece_text_closes, app_nil_r, firstn_all2 by lia.
  reflexivity.
Qed.

End RenderText.

Lemma to_telegram_html_text (text : pystr) (ents : option (list entity)) (res : pystr) :
  to_telegram_html text ents = Ok res -> strip_tags res = html_escape text.
Proof.
  intros H. apply telegram_out_ok in H as [[-> ->]|[spans [Hm ->]]]; [reflexivity|].
  pose proof (pipeline_tags text ents spans Hm) as Ht.
  destruct (render_nest text spans Ht) as [Hp _]. cbn [out] in Hp.
  rewrite strip_tags_concat by exact Hp. apply render_text, Ht.
Qed.

(** X14: removing the tags from a string [to_telegram_html] returns gives
    back the escaped text: the tags are the only thing added, and every
    character of the text appears once, in order, escaped. *)
Theorem output_text_is_escaped_input (text : pystr) (ents : option (list entity)) (res : pystr) :
  to_telegram_html text ents = Ok res -> strip_tags res = html_escape text.
Proof. apply to_telegram_html_text. Qed.

Lemma output_text_is_escaped_input_witness :
  to_telegram_html (lit "a<b c") (Some [ent 1 Bold 0 3; ent 2 Italic 2 3])
    = Ok (lit "<b>a&lt;<i>b</i></b><i> c</i>")
  /\ strip_tags (lit "<b>a&lt;<i>b</i></b><i> c</i>") = html_escape (lit "a<b c").
Proof.
  split; [vm_compute; reflexivity|].
  apply (output_text_is_escaped_input (lit "a<b c") (Some [ent 1 Bold 0 3; ent 2 Italic 2 3])).
  vm_compute. reflexivity.
Defined.

(** ** Message handlers *)

Lemma html_escape_nil (t : pystr) : html_escape t = [] -> t = [].
Proof.
  destruct t as [|c t]; [reflexivity|]. simpl. unfold escape_char.
  destruct (c =? 38), (c =? 60), (c =? 62), (c =? 34), (c =? 39); discriminate.
Qed.

(** X15: in [handle_text] and [handle_caption] the fallback
    [html_escape(m.text or "")] never changes the answer: the reply is
    whatever [to_telegram_html] returns ([""] for a missing text).  For a
    non-empty text that reply is non-empty. *)
Theorem handle_reply_no_fallback (m_text : option pystr) (ents : option (list entity)) :
  handle_reply m_text ents
  = match m_text with None => Ok [] | Some t => to_telegram_html t ents end
  /\ (forall t h, m_text = Some t -> t <> [] -> handle_reply m_text ents = Ok h -> h <> []).
Proof.
  assert (Hne : forall t h, to_telegram_html t ents = Ok h -> t <> [] -> h <> []).
  { intros t h E Ht ->. apply to_telegram_html_text in E. apply Ht, html_escape_nil.
    symmetry. exact E. }
  assert (Heq : handle_reply m_text ents
                = match m_text with None => Ok [] | Some t => to_telegram_html t ents end).
  { destruct m_text as [t|]; [|reflexivity]. unfold handle_reply.
    destruct (to_telegram_html t ents) as [h|e] eqn:E; [|reflexivity].
    destruct h as [|c r]; [|reflexivity].
    apply to_telegram_html_text in E. simpl in E.
    rewrite (html_escape_nil t (eq_sym E)). reflexivity. }
  split; [exact Heq|].
  intros t h -> Ht H. rewrite Heq in H. exact (Hne t h H Ht).
Qed.

Lemma handle_reply_no_fallback_witness :
  handle_reply (Some (lit "a<b")) (Some [ent 1 Italic 0 1])
    = Ok (lit "<i>a</i>&lt;b")
  /\ lit "<i>a</i>&lt;b" <> [].
Proof.
  destruct (handle_reply_no_fallback (Some (lit "a<b")) (Some [ent 1 Italic 0 1])) as [H1 H2].
  assert (E : handle_reply (Some (lit "a<b")) (Some [ent 1 Italic 0 1]) = Ok (lit "<i>a</i>&lt;b"))
    by (rewrite H1; vm_compute; reflexivity).
  split; [exact E|].
  apply (H2 (lit "a<b")); [reflexivity | discriminate | exact E].
Defined.

(** ** [close_until] *)

Lemma pop_above_found (spans : list span) (sid : Z) (above rest : list Z) (o : list pystr) (re : list Z) :
  ~ In sid above ->
  pop_above spans sid (above ++ sid :: rest) o re
  = (sid :: rest, o ++ map (close_of spans) above, re ++ above).
Proof.
  revert o re; induction above as [|x above IH]; intros o re Hn; simpl.
  - rewrite Z.eqb_refl, !app_nil_r. reflexivity.
  - simpl in Hn. destruct (Z.eqb_spec x sid) as [->|_]; [tauto|].
    rewrite IH by tauto. rewrite <- !app_assoc. reflexivity.
Qed.

Lemma pop_above_missing (spans : list span) (sid : Z) (st : list Z) (o : list pystr) (re : list Z) :
  ~ In sid st -> pop_above spans sid st o re = ([], o ++ map (close_of spans) st, re ++ st).
Proof.
  revert o re; induction st as [|x st IH]; intros o re Hn; simpl.
  - rewrite !app_nil_r. reflexivity.
  - simpl in Hn. destruct (Z.eqb_spec x sid) as [->|_]; [tauto|].
    rewrite IH by tauto. rewrite <- !app_assoc. reflexivity.
Qed.

Lemma push_fold_eq (spans : list span) (xs : list Z) (st : list Z) (o : list pystr) :
  fold_left (fun '(st, o) x => (x :: st, o ++ [open_of spans x])) xs (st, o)
  = (rev xs ++ st, o ++ map (open_of spans) xs).
Proof.
  revert st o; induction xs as [|x xs IH]; intros st o; simpl.
  - rewrite app_nil_r. reflexivity.
  - rewrite IH, <- !app_assoc. reflexivity.
Qed.

(** X16: [close_until sid] when [sid] is open with [above] opened after
    it: the close tags of [above] (innermost first) and of [sid] are
    emitted, then the open tags of [above] again (outermost first); the
    open stack loses [sid] and nothing else, the others keep their order.
    When [sid] is not open, every open span is closed and reopened and the
    stack is unchanged. *)
Theorem close_until_effect (spans : list span) (sid : Z) (o : list pystr) (st : list Z) :
  (forall above rest, ~ In sid above -> st = above ++ sid :: rest ->
     close_until spans sid {| out := o; stk := st |}
     = {| out := o ++ map (close_of spans) above ++ [close_of spans sid]
                   ++ map (open_of spans) (rev above);
          stk := above ++ rest |})
  /\ (~ In sid st ->
     close_until spans sid {| out := o; stk := st |}
     = {| out := o ++ map (close_of spans) st ++ map (open_of spans) (rev st); stk := st |}).
Proof.
  split.
  - intros above rest Hn ->. unfold close_until. cbn [stk out].
    rewrite pop_above_found by exact Hn. simpl. rewrite Z.eqb_refl, push_fold_eq, rev_involutive.
    rewrite <- !app_assoc. reflexivity.
  - intros Hn. unfold close_until. cbn [stk out].
    rewrite pop_above_missing by exact Hn. simpl. rewrite push_fold_eq, rev_involutive, app_nil_r.
    rewrite <- !app_assoc. reflexivity.
Qed.

Lemma close_until_effect_witness :
  close_until [mk_span 1 Bold 0 5 (lit "<b>") (lit "</b>") 10;
               mk_span 2 Italic 3 8 (lit "<i>") (lit "</i>") 11] 1 {| out := []; stk := [2; 1] |}
  = {| out := [lit "</i>"; lit "</b>"; lit "<i>"]; stk := [2] |}.
Proof.
  rewrite (proj1 (close_until_effect [mk_span 1 Bold 0 5 (lit "<b>") (lit "</b>") 10;
                                      mk_span 2 Italic 3 8 (lit "<i>") (lit "</i>") 11]
                                     1 [] [2; 1]) [2] []); [| simpl; lia | reflexivity].
  vm_compute. reflexivity.
Defined.
